(** * go-nntp client: response decoding

    A shallow embedding of the response-decoding code of package
    [nntpclient] (client/ringbuffer.go, client/compressed.go and
    client/client.go), and the properties of it that the specification
    states.

    Conventions.
    - A Go [string] is a [string] (a sequence of 8-bit [ascii]); a [[]byte]
      is a [list byte].
    - A Go function returning [(T, error)] returns a [res T]: [Ok] for a nil
      error, [Err] for a non-nil one, [Panic] for a run-time panic (index or
      slice bounds, division by zero).
    - [int] values that only hold lengths and indices are [nat]; values that
      are parsed or formatted are [Z], with the 64-bit wrap-around written
      out where the Go code can reach it.
    - The connection is modelled by the results its successive reads and
      writes return (see [Conn]). *)

From Stdlib Require Import ZArith String Ascii Strings.Byte Lia DecimalString.
From stdpp Require Import base list strings.
From Equations Require Import Equations.

(** ** Go values: errors, panics, results *)

Inductive numErrKind := ErrSyntax | ErrRange.

(** The [error] values the package can see.  [NumError] is
    [*strconv.NumError]; [ProtocolError] and [CodeError] are
    [textproto.ProtocolError] and [*textproto.Error]; [OtherError] stands for
    the errors of the collaborators (network, zlib, dateparse, yenc). *)
Inductive error :=
| EOF
| ErrUnexpectedEOF
| NumError (fn num : string) (kind : numErrKind)
| ProtocolError (msg : string)
| CodeError (code : Z) (msg : string)
| OtherError (msg : string).

Inductive panic :=
| IndexOutOfRange
| SliceBoundsOutOfRange
| IntegerDivideByZero.

Inductive res (A : Type) :=
| Ok (a : A)
| Err (e : error)
| Panic (p : panic).
Arguments Ok {A} a.
Arguments Err {A} e.
Arguments Panic {A} p.

Definition res_bind {A B} (m : res A) (k : A -> res B) : res B :=
  match m with
  | Ok a => k a
  | Err e => Err e
  | Panic p => Panic p
  end.

Notation "'do' x <- m ; k" := (res_bind m (fun x => k))
  (at level 10, x name, m at level 100, k at level 200).
Notation "'do' ' p <- m ; k" := (res_bind m (fun x => let 'p := x in k))
  (at level 10, p pattern, m at level 100, k at level 200).

(** State passing with early return: a Go method that mutates its receiver
    and returns [(T, error)]. *)
Definition st (S A : Type) : Type := S -> S * res A.

Definition st_ret {S A} (a : A) : st S A := fun s => (s, Ok a).

Definition st_lift {S A} (r : res A) : st S A := fun s => (s, r).

Definition st_bind {S A B} (m : st S A) (k : A -> st S B) : st S B :=
  fun s =>
    let '(s', r) := m s in
    match r with
    | Ok a => k a s'
    | Err e => (s', Err e)
    | Panic p => (s', Panic p)
    end.

Notation "'exec' x <- m ; k" := (st_bind m (fun x => k))
  (at level 10, x name, m at level 100, k at level 200).

(** [l[i]] on a slice: a run-time panic when [i] is out of range. *)
Definition index {A} (l : list A) (i : nat) : res A :=
  match l !! i with
  | Some x => Ok x
  | None => Panic IndexOutOfRange
  end.

(** [for i := i0; i < i0 + n; i++ { s = body(s, i) }], where the body may
    panic or return early with an error. *)
Fixpoint forRange {St} (body : St -> nat -> res St) (i n : nat) (s : St) : res St :=
  match n with
  | 0 => Ok s
  | S n' => do s' <- body s i; forRange body (S i) n' s'
  end.

#[global] Instance byte_eq_dec : EqDecision byte.
Proof. intros x y. destruct (Byte.eqb x y) eqn:E.
  - left. now apply Byte.byte_dec_bl.
  - right. now apply Byte.eqb_false.
Defined.

(** ** The Go library functions the package calls *)

Definition codeOf (c : ascii) : Z := Z.of_nat (nat_of_ascii c).

Definition TAB : ascii := ascii_of_nat 9.
Definition LF : ascii := ascii_of_nat 10.
Definition CR : ascii := ascii_of_nat 13.
Definition DOT : ascii := ascii_of_nat 46.

(** [strings.Split(s, sep)] for a one-byte separator, the only kind this
    package passes. *)
Fixpoint Split (s : string) (sep : ascii) : list string :=
  match s with
  | EmptyString => [EmptyString]
  | String c s' =>
      if decide (c = sep) then EmptyString :: Split s' sep
      else match Split s' sep with
           | x :: xs => String c x :: xs
           | [] => [String c EmptyString]
           end
  end.

Definition isDigit (c : ascii) : bool := (48 <=? codeOf c)%Z && (codeOf c <=? 57)%Z.

Definition maxUint64 : Z := 2 ^ 64 - 1.

(** The digit loop of [strconv.ParseUint(s0, 10, bitSize)]: [cutoff] is the
    smallest number with [cutoff * 10 > maxUint64]; the additions are those
    of [uint64]. *)
Fixpoint parseUintLoop (s0 : string) (maxVal : Z) (s : string) (n : Z) : res Z :=
  match s with
  | EmptyString => Ok n
  | String c s' =>
      if isDigit c then
        let d := (codeOf c - 48)%Z in
        let cutoff := (maxUint64 / 10 + 1)%Z in
        if (cutoff <=? n)%Z then Err (NumError "ParseUint" s0 ErrRange)
        else
          let n10 := ((n * 10) mod 2 ^ 64)%Z in
          let n1 := ((n10 + d) mod 2 ^ 64)%Z in
          if (n1 <? n10)%Z || (maxVal <? n1)%Z
          then Err (NumError "ParseUint" s0 ErrRange)
          else parseUintLoop s0 maxVal s' n1
      else Err (NumError "ParseUint" s0 ErrSyntax)
  end.

(** [strconv.ParseUint(s, 10, bitSize)], for [bitSize] 32 or 64. *)
Definition ParseUint (s : string) (bitSize : Z) : res Z :=
  if decide (s = EmptyString) then Err (NumError "ParseUint" s ErrSyntax)
  else parseUintLoop s (2 ^ bitSize - 1)%Z s 0%Z.

(** [strconv.Atoi(s)] on its fast path (strings shorter than 19 bytes),
    which is where [textproto] calls it on a three-byte prefix. *)
Fixpoint atoiDigits (s0 s : string) (n : Z) : res Z :=
  match s with
  | EmptyString => Ok n
  | String c s' =>
      if isDigit c then atoiDigits s0 s' (n * 10 + (codeOf c - 48))%Z
      else Err (NumError "Atoi" s0 ErrSyntax)
  end.

Definition Atoi (s : string) : res Z :=
  match s with
  | EmptyString => Err (NumError "Atoi" s ErrSyntax)
  | String c s' =>
      if decide (c = "-"%char) then
        if decide (s' = EmptyString) then Err (NumError "Atoi" s ErrSyntax)
        else do n <- atoiDigits s s' 0%Z; Ok (- n)%Z
      else if decide (c = "+"%char) then
        if decide (s' = EmptyString) then Err (NumError "Atoi" s ErrSyntax)
        else atoiDigits s s' 0%Z
      else atoiDigits s s 0%Z
  end.

(** [strconv.ParseInt(s, 10, bitSize)]: the sign is picked off, the rest goes
    through [ParseUint], and the result is checked against the signed range.
    After a range error of [ParseUint] the unsigned value is the largest one,
    which fails the range check as well. *)
Definition ParseInt (s : string) (bitSize : Z) : res Z :=
  match s with
  | EmptyString => Err (NumError "ParseInt" s ErrSyntax)
  | String c s' =>
      let neg := bool_decide (c = "-"%char) in
      let digits := if decide (c = "+"%char) then s' else if neg then s' else s in
      let cutoff := (2 ^ (bitSize - 1))%Z in
      match ParseUint digits bitSize with
      | Ok un =>
          if negb neg && (cutoff <=? un)%Z then Err (NumError "ParseInt" s ErrRange)
          else if neg && (cutoff <? un)%Z then Err (NumError "ParseInt" s ErrRange)
          else Ok (if neg then - un else un)%Z
      | Err (NumError _ _ kind) => Err (NumError "ParseInt" s kind)
      | Err e => Err e
      | Panic p => Panic p
      end
  end.

(** Splits at the first [sep]: the text before it and the text after it. *)
Fixpoint splitFirst (sep : ascii) (s : string) : option (string * string) :=
  match s with
  | EmptyString => None
  | String c s' =>
      if decide (c = sep) then Some (EmptyString, s')
      else match splitFirst sep s' with
           | Some (a, b) => Some (String c a, b)
           | None => None
           end
  end.

(** [strings.SplitN(s, sep, 2)] for a one-byte separator. *)
Definition SplitN2 (s : string) (sep : ascii) : list string :=
  match splitFirst sep s with
  | Some (a, b) => [a; b]
  | None => [s]
  end.

(** [fmt.Sprintf("%v", n)] for an [int64]. *)
Definition formatInt (n : Z) : string := NilZero.string_of_int (Z.to_int n).

(** *** strings.TrimSpace

    White space is what [unicode.IsSpace] accepts: the six ASCII characters
    of [asciiSpace], and the runes U+0085, U+00A0, U+1680, U+2000..U+200A,
    U+2028, U+2029, U+202F, U+205F and U+3000, recognised by their UTF-8
    encodings (two or three bytes). *)
Definition asciiSpace (c : ascii) : bool :=
  let n := codeOf c in ((9 <=? n)%Z && (n <=? 13)%Z) || (n =? 32)%Z.

Definition isSpace2 (c1 c2 : ascii) : bool :=
  (codeOf c1 =? 194)%Z && ((codeOf c2 =? 133)%Z || (codeOf c2 =? 160)%Z).

Definition isSpace3 (c1 c2 c3 : ascii) : bool :=
  let '(a, b, c) := (codeOf c1, codeOf c2, codeOf c3) in
  ((a =? 225) && (b =? 154) && (c =? 128))%Z
  || ((a =? 226) && (b =? 128)
      && (((128 <=? c) && (c <=? 138)) || (c =? 168) || (c =? 169) || (c =? 175)))%Z
  || ((a =? 226) && (b =? 129) && (c =? 159))%Z
  || ((a =? 227) && (b =? 128) && (c =? 128))%Z.

(** Drops the leading white space of a sequence of bytes.  With [flip] the
    bytes of a rune are expected last byte first, for use on a reversed
    string. *)
Fixpoint trimLeading (flip : bool) (s : list ascii) : list ascii :=
  match s with
  | [] => s
  | c1 :: s1 =>
      if asciiSpace c1 then trimLeading flip s1 else
      match s1 with
      | [] => s
      | c2 :: s2 =>
          if (if flip then isSpace2 c2 c1 else isSpace2 c1 c2)
          then trimLeading flip s2 else
          match s2 with
          | [] => s
          | c3 :: s3 =>
              if (if flip then isSpace3 c3 c2 c1 else isSpace3 c1 c2 c3)
              then trimLeading flip s3 else s
          end
      end
  end.

(** The leading white space goes first, then the trailing one. *)
Definition TrimSpace (s : string) : string :=
  string_of_list_ascii
    (rev (trimLeading true (rev (trimLeading false (list_ascii_of_string s))))).

(** *** bufio.Reader over the decompressed stream

    [pending] is the text still to be read and [final] the error that ends
    it: [EOF] after a well-formed stream, a zlib error after a corrupt one. *)
Record bufReader := mkBufReader { pending : string; final : error }.

(** Splits at the first [delim]: the text up to and including it, and the
    rest; [None] when there is no [delim]. *)
Fixpoint cutAt (delim : ascii) (s : string) : option (string * string) :=
  match s with
  | EmptyString => None
  | String c s' =>
      if decide (c = delim) then Some (String c EmptyString, s')
      else match cutAt delim s' with
           | Some (l, r) => Some (String c l, r)
           | None => None
           end
  end.

(** [reader.ReadString(delim)]: the text up to and including the first
    [delim]; when the stream ends first, the text read so far together with
    the error. *)
Definition ReadString (r : bufReader) (delim : ascii)
  : bufReader * (string * option error) :=
  match cutAt delim (pending r) with
  | Some (line, rest) => ({| pending := rest; final := final r |}, (line, None))
  | None => ({| pending := EmptyString; final := final r |}, (pending r, Some (final r)))
  end.

(** ** The connection

    [*textproto.Conn], by the results of its operations in the order the
    client performs them:
    - [sent]: the lines handed to [PrintfLine], oldest first;
    - [writes]: the results of the successive [PrintfLine] calls ([None] is
      a nil error; a drained list means the writes succeed);
    - [lines]: the results of the successive [ReadLine] calls;
    - [chunks]: the results of the successive [R.Read(buf)] calls.
    A drained [lines] or [chunks] means the peer closed the connection: the
    read returns [io.EOF]. *)
Inductive rd (A : Type) :=
| Data (a : A)
| Fail (e : error).
Arguments Data {A} a.
Arguments Fail {A} e.

Record Conn := mkConn {
  sent : list string;
  writes : list (option error);
  lines : list (rd string);
  chunks : list (rd (list byte))
}.

(** ** client/ringbuffer.go *)
Module RingBuffer.

Record ringBuffer := mkRingBuffer {
  Capacity : nat;
  Buffer : list byte;
  position : nat;
  used : nat
}.

Definition newRingBuffer (cap : nat) : ringBuffer :=
  {| Capacity := cap;
     Buffer := replicate cap x00;
     position := 0;
     used := 0 |}.

(** One iteration of the loop of [Write].  [(position + i) % Capacity]
    cannot divide by zero here: the loop runs only for [i < count <= Capacity]. *)
Definition writeStep (buf : list byte) (start : nat) (b : ringBuffer) (i : nat)
  : res ringBuffer :=
  let bufferPos := (position b + i) mod Capacity b in
  do x <- index buf (start + i);
  if decide (bufferPos < length (Buffer b)) then
    Ok {| Capacity := Capacity b;
          Buffer := <[bufferPos := x]> (Buffer b);
          position := position b;
          used := if decide (used b < Capacity b) then S (used b) else used b |}
  else Panic IndexOutOfRange.

Definition Write (b : ringBuffer) (buf : list byte) : res ringBuffer :=
  let bufCount := length buf in
  let count := if decide (bufCount < Capacity b) then bufCount else Capacity b in
  let start := bufCount - count in
  forRange (writeStep buf start) 0 count b.

(** The loop of [Equals], from index [i], with [n] iterations left. *)
Fixpoint equalsLoop (b : ringBuffer) (buf : list byte) (i n : nat) : res bool :=
  match n with
  | 0 => Ok true
  | S n' =>
      if decide (Capacity b = 0) then Panic IntegerDivideByZero else
      let bufferPos := (position b + i) mod Capacity b in
      do x <- index (Buffer b) bufferPos;
      do y <- index buf i;
      if decide (x <> y) then Ok false
      else equalsLoop b buf (S i) n'
  end.

Definition Equals (b : ringBuffer) (buf : list byte) : res bool :=
  if decide (length buf <> used b) then Ok false
  else equalsLoop b buf 0 (used b).

End RingBuffer.

(** ** client/compressed.go *)
Module Compressed.
Import RingBuffer.

(** [[]byte(".\r\n")] *)
Definition term : list byte := [x2e; x0d; x0a].

(** The loop of [readCompressed].  [R] is [proto.R], by the results of its
    [Read(buf)] calls; a [Data sl] is the slice [buf[0:br]] that the call
    filled, so [length sl <= 1024].  [istream] is the content of the memory
    stream, which is only written at its end. *)
Fixpoint readLoop (R : list (rd (list byte))) (rb : ringBuffer) (istream : list byte)
  : list (rd (list byte)) * list byte * res unit :=
  match R with
  | [] => ([], istream, Err EOF)
  | Fail err :: R' => (R', istream, Err err)
  | Data sl :: R' =>
      let br := length sl in
      match (do rb' <- Write rb sl; do m <- Equals rb' term; Ok (rb', m)) with
      | Ok (rb', true) =>
          if decide (br < 3) then (R', istream, Panic SliceBoundsOutOfRange)
          else (R', istream ++ take (br - 3) sl, Ok tt)
      | Ok (rb', false) => readLoop R' rb' (istream ++ sl)
      | Err e => (R', istream, Err e)
      | Panic p => (R', istream, Panic p)
      end
  end.

Definition readCompressed (R : list (rd (list byte))) (istream : list byte)
  : list (rd (list byte)) * list byte * res unit :=
  readLoop R (newRingBuffer 3) istream.

(** The loop of [readCompressedLines]; [out] is its slice [res]. *)
Equations? compressedLinesLoop (reader : bufReader) (out : list string)
    : res (list string) by wf (String.length (pending reader)) lt :=
  compressedLinesLoop reader out with Logic.inspect (ReadString reader LF) => {
    | exist _ (reader', (line, Some EOF)) _ => Ok out
    | exist _ (reader', (line, Some err)) _ => Err err
    | exist _ (reader', (line, None)) _ =>
        compressedLinesLoop reader' (out ++ [TrimSpace line]) }.
Proof.
  match goal with H : ReadString _ _ = _ |- _ => revert H end.
  unfold ReadString. clear.
  destruct (cutAt LF (pending reader)) as [[l0 r0]|] eqn:E; [|discriminate].
  intros [= <- _]; simpl.
  revert l0 r0 E. induction (pending reader) as [|c p IH]; intros l0 r0 E.
  - discriminate.
  - simpl in E. destruct (decide (c = LF)).
    + injection E as <- <-. simpl. lia.
    + destruct (cutAt LF p) as [[l' r']|]; [|discriminate].
      injection E as <- <-. specialize (IH _ _ eq_refl). simpl. lia.
Qed.

Section Zlib.
(** [zlib.NewReader] wrapped in [bufio.NewReader], as a function of the
    bytes of the memory stream. *)
Variable zlibNewReader : list byte -> res bufReader.

Definition getCompressedReader : st Conn bufReader :=
  fun proto =>
    let '(R', iostream, r) := readCompressed (chunks proto) [] in
    let proto' := {| sent := sent proto; writes := writes proto;
                     lines := lines proto; chunks := R' |} in
    (proto', do _ <- r; zlibNewReader iostream).

Definition readCompressedLines : st Conn (list string) :=
  exec reader <- getCompressedReader;
  st_lift (compressedLinesLoop reader []).
End Zlib.

End Compressed.

(** ** net/textproto, on [Conn] *)
Module Textproto.

(** [PrintfLine(format)] without arguments, for a [format] without verbs
    (no ['%']), as all commands of this package are. *)
Definition PrintfLine (format : string) : st Conn unit :=
  fun c =>
    ({| sent := sent c ++ [format]; writes := tail (writes c);
        lines := lines c; chunks := chunks c |},
     match writes c with
     | Some e :: _ => Err e
     | _ => Ok tt
     end).

Definition ReadLine : st Conn string :=
  fun c =>
    match lines c with
    | [] => (c, Err EOF)
    | x :: ls =>
        ({| sent := sent c; writes := writes c; lines := ls; chunks := chunks c |},
         match x with Data line => Ok line | Fail e => Err e end)
    end.

Definition byteAt (s : string) (i : nat) : option ascii := String.get i s.

Definition parseCodeLine (line : string) (expectCode : Z) : res (Z * bool * string) :=
  if decide (String.length line < 4
             \/ (byteAt line 3 <> Some " "%char /\ byteAt line 3 <> Some "-"%char))
  then Err (ProtocolError ("short response: " +:+ line))
  else
    let continued := bool_decide (byteAt line 3 = Some "-"%char) in
    match Atoi (substring 0 3 line) with
    | Ok code =>
        if decide (code < 100)%Z
        then Err (ProtocolError ("invalid response code: " +:+ line))
        else
          let message := substring 4 (String.length line - 4) line in
          if decide ((1 <= expectCode < 10 /\ code `quot` 100 <> expectCode)
                     \/ (10 <= expectCode < 100 /\ code `quot` 10 <> expectCode)
                     \/ (100 <= expectCode < 1000 /\ code <> expectCode))%Z
          then Err (CodeError code message)
          else Ok (code, continued, message)
    | _ => Err (ProtocolError ("invalid response code: " +:+ line))
    end.

Definition ReadCodeLine (expectCode : Z) : st Conn (Z * string) :=
  exec line <- ReadLine;
  st_lift (do '(code, continued, message) <- parseCodeLine line expectCode;
           if (continued : bool)
           then Err (ProtocolError ("unexpected multi-line response: " +:+ message))
           else Ok (code, message)).

(** The block [if len(line) > 0 && line[0] == '.' { if len(line) == 1
    { break }; line = line[1:] }] that [ReadDotLines], [Over] and
    [readDotLines] share: [None] is the [break], [Some l] goes on with
    [line = l]. *)
Definition cutDot (line : string) : option string :=
  match line with
  | String c rest =>
      if decide (c = DOT) then
        if decide (String.length line = 1) then None else Some rest
      else Some line
  | EmptyString => Some line
  end.

(** The loop of [ReadDotLines] over the results of [ReadLine]. *)
Fixpoint dotLines (ls : list (rd string)) (v : list string)
  : list (rd string) * res (list string) :=
  match ls with
  | [] => ([], Err ErrUnexpectedEOF)
  | Fail err :: ls' =>
      (ls', Err (match err with EOF => ErrUnexpectedEOF | _ => err end))
  | Data line :: ls' =>
      match cutDot line with
      | None => (ls', Ok v)
      | Some line' => dotLines ls' (v ++ [line'])
      end
  end.

Definition ReadDotLines : st Conn (list string) :=
  fun c =>
    let '(ls', r) := dotLines (lines c) [] in
    ({| sent := sent c; writes := writes c; lines := ls'; chunks := chunks c |}, r).

End Textproto.

(** ** Package nntp

    The types of package [nntp] (the root of the repository) that client.go
    uses.  Their declarations are not among the sources: [Group] has the
    fields that client.go assigns, at the types it assigns them, and
    [PostingStatus] the three constants that client.go names, besides the zero
    value that a [Group] has where no posting status is assigned (the
    declaration decides whether that is one of the named constants). *)
Module nntp.

Inductive PostingStatus :=
| PostingPermitted
| PostingModerated
| PostingNotPermitted
| PostingStatusZero.

Record Group := mkGroup {
  Name : string;
  High : Z;
  Low : Z;
  Count : Z;
  Posting : PostingStatus
}.

End nntp.

(** ** client/client.go *)
Module Client.
Import Textproto Compressed.

(** [type OverHeader byte] and its constants. *)
Definition OverHeader := ascii.

Definition OverHeaderSubject : OverHeader := "s"%char.
Definition OverHeaderFrm : OverHeader := "f"%char.
Definition OverHeaderXRefFull : OverHeader := "x"%char.
Definition OverHeaderDate : OverHeader := "d"%char.
Definition OverHeaderMsgId : OverHeader := "m"%char.
Definition OverHeaderReferences : OverHeader := "r"%char.
Definition OverHeaderBytes : OverHeader := "b"%char.
Definition OverHeaderLines : OverHeader := "l"%char.

(** [time.Time], as the seconds since its zero value (January 1, year 1,
    00:00:00 UTC). *)
Definition Time := Z.
Definition zeroTime : Time := 0%Z.

(** Modelled from the spec: [nntp.ArticleOverview], whose declaration (package
    [nntp], the root of the repository) is not among the sources.  The
    spec's Overview Record is a numeric identifier plus typed fields (string,
    unsigned integer, timestamp); the fields are the ones the setters of
    client.go assign, at the types they assign them.  ([From_] is the field
    [From].) *)
Record ArticleOverview := mkArticleOverview {
  Id : Z;
  Subject : string;
  From_ : string;
  Date : Time;
  MessageId : string;
  References : string;
  Bytes : Z;
  Lines : Z;
  XRef : string
}.

(** [&nntp.ArticleOverview{}] *)
Definition emptyOverview : ArticleOverview :=
  {| Id := 0; Subject := EmptyString; From_ := EmptyString; Date := zeroTime;
     MessageId := EmptyString; References := EmptyString; Bytes := 0; Lines := 0;
     XRef := EmptyString |}.

(** [res.Id = id] *)
Definition setId (overview : ArticleOverview) (id : Z) : ArticleOverview :=
  {| Id := id; Subject := Subject overview; From_ := From_ overview;
     Date := Date overview; MessageId := MessageId overview;
     References := References overview; Bytes := Bytes overview;
     Lines := Lines overview; XRef := XRef overview |}.

Record Client := mkClient {
  conn : Conn;
  overViewFormat : list OverHeader;
  capabilities : list string;
  loadedCapabilities : bool;
  Banner : string;
  compress : bool
}.

Definition setConn (c : Client) (k : Conn) : Client :=
  {| conn := k; overViewFormat := overViewFormat c; capabilities := capabilities c;
     loadedCapabilities := loadedCapabilities c; Banner := Banner c;
     compress := compress c |}.

Definition setOverViewFormat (fmt : list OverHeader) : st Client unit :=
  fun c =>
    ({| conn := conn c; overViewFormat := fmt; capabilities := capabilities c;
        loadedCapabilities := loadedCapabilities c; Banner := Banner c;
        compress := compress c |}, Ok tt).

Definition setCompress (b : bool) : st Client unit :=
  fun c =>
    ({| conn := conn c; overViewFormat := overViewFormat c;
        capabilities := capabilities c;
        loadedCapabilities := loadedCapabilities c; Banner := Banner c;
        compress := b |}, Ok tt).

(** An operation on [c.conn]. *)
Definition onConn {A} (m : st Conn A) : st Client A :=
  fun c => let '(k, r) := m (conn c) in (setConn c k, r).

Definition Command (cmd : string) (expectCode : Z) : st Client (Z * string) :=
  exec _ <- onConn (PrintfLine cmd);
  onConn (ReadCodeLine expectCode).

(** The body of the loop of [overviewFmt]: the [switch line].  A Go [case]
    does not fall through, so the cases [":bytes"] and [":lines"], whose
    bodies are empty, append nothing. *)
Definition overviewFmtCase (res : list OverHeader) (line : string) : list OverHeader :=
  if decide (line = "Subject:") then res ++ [OverHeaderSubject]
  else if decide (line = "From:") then res ++ [OverHeaderFrm]
  else if decide (line = "Date:") then res ++ [OverHeaderDate]
  else if decide (line = "Message-ID:") then res ++ [OverHeaderMsgId]
  else if decide (line = "References:") then res ++ [OverHeaderReferences]
  else if decide (line = ":bytes") then res
  else if decide (line = "Bytes") then res ++ [OverHeaderBytes]
  else if decide (line = ":lines") then res
  else if decide (line = "Lines") then res ++ [OverHeaderLines]
  else if decide (line = "Xref:full") then res ++ [OverHeaderXRefFull]
  else res.

Definition overviewFmt : st Client (list OverHeader) :=
  exec _ <- Command "LIST OVERVIEW.FMT" 215;
  exec lines <- onConn ReadDotLines;
  st_ret (fold_left overviewFmtCase lines []).

Definition setCapabilities (ls : list string) : st Client unit :=
  fun c =>
    ({| conn := conn c; overViewFormat := overViewFormat c; capabilities := ls;
        loadedCapabilities := loadedCapabilities c; Banner := Banner c;
        compress := compress c |}, Ok tt).

(** [connect]: the client exists only after the greeting. *)
Definition connect (k : Conn) : res Client :=
  let '(k', r) := ReadCodeLine 200 k in
  do x <- r;
  Ok {| conn := k'; overViewFormat := []; capabilities := [];
        loadedCapabilities := false; Banner := x.2; compress := false |}.

Definition Capabilities : st Client (list string) :=
  fun c =>
    if loadedCapabilities c then (c, Ok (capabilities c))
    else (exec _ <- Command "CAPABILITIES" 101;
          exec ls <- onConn ReadDotLines;
          exec _ <- setCapabilities ls;
          fun c' => (c', Ok (capabilities c'))) c.

(** [PrintfLine("authinfo user %s", user)]: the verb [%s] writes a string
    argument as it is. *)
Definition Authenticate (user pass : string) : st Client string :=
  exec _ <- onConn (PrintfLine ("authinfo user " +:+ user));
  exec _ <- onConn (ReadCodeLine 381);
  exec _ <- onConn (PrintfLine ("authinfo pass " +:+ pass));
  exec x <- onConn (ReadCodeLine 281);
  st_ret x.2.

Definition parsePosting (p : string) : nntp.PostingStatus :=
  if decide (p = "y") then nntp.PostingPermitted
  else if decide (p = "m") then nntp.PostingModerated
  else nntp.PostingNotPermitted.

(** The body of the loop of [List], for the line [l]. *)
Definition listStep (rv : list nntp.Group) (l : string) : res (list nntp.Group) :=
  let parts := Split l " "%char in
  do p1 <- index parts 1;
  let high := ParseInt p1 64 in
  do p2 <- index parts 2;
  let low := ParseInt p2 64 in
  match high, low with
  | Ok h, Ok lo =>
      do p0 <- index parts 0;
      do p3 <- index parts 3;
      Ok (rv ++ [{| nntp.Name := p0; nntp.High := h; nntp.Low := lo;
                    nntp.Count := 0; nntp.Posting := parsePosting p3 |}])
  | Panic p, _ => Panic p
  | _, Panic p => Panic p
  | _, _ => Ok rv
  end.

Fixpoint listLoop (groupLines : list string) (rv : list nntp.Group)
  : res (list nntp.Group) :=
  match groupLines with
  | [] => Ok rv
  | l :: ls => do rv' <- listStep rv l; listLoop ls rv'
  end.

Definition List (sub : string) : st Client (list nntp.Group) :=
  exec _ <- Command ("LIST " +:+ sub) 215;
  exec groupLines <- onConn ReadDotLines;
  st_lift (listLoop groupLines []).

(** [Group].  The error that the length check assigns to [err] is
    overwritten by the next statement. *)
Definition Group (name : string) : st Client nntp.Group :=
  exec x <- Command ("GROUP " +:+ name) 211;
  let msg := x.2 in
  st_lift
    (let parts := Split msg " "%char in
     let err :=
       if decide (length parts <> 4)
       then Some (OtherError ("Don't know how to parse result: " +:+ msg))
       else None in
     do p0 <- index parts 0;
     do count <- ParseInt p0 64;
     do p1 <- index parts 1;
     do low <- ParseInt p1 64;
     do p2 <- index parts 2;
     do high <- ParseInt p2 64;
     do p3 <- index parts 3;
     Ok {| nntp.Name := p3; nntp.High := high; nntp.Low := low;
           nntp.Count := count; nntp.Posting := nntp.PostingStatusZero |}).

(** [articleish]: the number and the identifier of the reply.  The
    [io.Reader] it returns besides is [c.conn.DotReader()], which reads
    nothing from the connection until it is read. *)
Definition articleish (expected : Z) : st Client (Z * string) :=
  exec x <- onConn (ReadCodeLine expected);
  let msg := x.2 in
  st_lift
    (let parts := SplitN2 msg " "%char in
     do p0 <- index parts 0;
     do n <- ParseInt p0 64;
     do p1 <- index parts 1;
     Ok (n, p1)).

Definition Article (specifier : string) : st Client (Z * string) :=
  exec _ <- onConn (PrintfLine ("ARTICLE " +:+ specifier));
  articleish 220.

Definition Head (specifier : string) : st Client (Z * string) :=
  exec _ <- onConn (PrintfLine ("HEAD " +:+ specifier));
  articleish 221.

Definition Body (specifier : string) : st Client (Z * string) :=
  exec _ <- onConn (PrintfLine ("BODY " +:+ specifier));
  articleish 222.

Definition setter := ArticleOverview -> string -> res ArticleOverview.

Section Collaborators.
(** [dateparse.ParseAny], behind [parseDate]. *)
Variable parseDate : string -> res Time.
(** [zlib.NewReader] under [bufio.NewReader], see [getCompressedReader]. *)
Variable zlibNewReader : list byte -> res bufReader.
(** [yenc.Decode(c.conn.R)]: what it consumes of [chunks] and the body of
    the part it decodes. *)
Variable yencDecode : st (list (rd (list byte))) (list byte).

(** The map [infoSetters]; [None] is a key without an entry. *)
Definition infoSetters (h : OverHeader) : option setter :=
  if decide (h = OverHeaderSubject) then
    Some (fun overview s =>
      Ok {| Id := Id overview; Subject := s; From_ := From_ overview;
            Date := Date overview; MessageId := MessageId overview;
            References := References overview; Bytes := Bytes overview;
            Lines := Lines overview; XRef := XRef overview |})
  else if decide (h = OverHeaderFrm) then
    Some (fun overview s =>
      Ok {| Id := Id overview; Subject := Subject overview; From_ := s;
            Date := Date overview; MessageId := MessageId overview;
            References := References overview; Bytes := Bytes overview;
            Lines := Lines overview; XRef := XRef overview |})
  else if decide (h = OverHeaderDate) then
    Some (fun overview s =>
      do date <- parseDate s;
      Ok {| Id := Id overview; Subject := Subject overview; From_ := From_ overview;
            Date := date; MessageId := MessageId overview;
            References := References overview; Bytes := Bytes overview;
            Lines := Lines overview; XRef := XRef overview |})
  else if decide (h = OverHeaderMsgId) then
    Some (fun overview s =>
      Ok {| Id := Id overview; Subject := Subject overview; From_ := From_ overview;
            Date := Date overview; MessageId := s;
            References := References overview; Bytes := Bytes overview;
            Lines := Lines overview; XRef := XRef overview |})
  else if decide (h = OverHeaderReferences) then
    Some (fun overview s =>
      Ok {| Id := Id overview; Subject := Subject overview; From_ := From_ overview;
            Date := Date overview; MessageId := MessageId overview;
            References := s; Bytes := Bytes overview;
            Lines := Lines overview; XRef := XRef overview |})
  else if decide (h = OverHeaderLines) then
    Some (fun overview s =>
      do lines <- ParseUint s 32;
      Ok {| Id := Id overview; Subject := Subject overview; From_ := From_ overview;
            Date := Date overview; MessageId := MessageId overview;
            References := References overview; Bytes := Bytes overview;
            Lines := (lines mod 2 ^ 32)%Z; XRef := XRef overview |})
  else if decide (h = OverHeaderXRefFull) then
    Some (fun overview s =>
      Ok {| Id := Id overview; Subject := Subject overview; From_ := From_ overview;
            Date := Date overview; MessageId := MessageId overview;
            References := References overview; Bytes := Bytes overview;
            Lines := Lines overview; XRef := s |})
  else if decide (h = OverHeaderBytes) then
    Some (fun overview s =>
      do bytes <- ParseUint s 32;
      Ok {| Id := Id overview; Subject := Subject overview; From_ := From_ overview;
            Date := Date overview; MessageId := MessageId overview;
            References := References overview; Bytes := (bytes mod 2 ^ 32)%Z;
            Lines := Lines overview; XRef := XRef overview |})
  else None.

(** The loop [for i := 1; i < len(items) && i-1 < len(format); i++] of
    [parseArticleOverview], from [i] on. *)
Equations? overviewLoop (items : list string) (format : list OverHeader)
    (i : nat) (overview : ArticleOverview) : res ArticleOverview
    by wf (length items - i) lt :=
  overviewLoop items format i overview
    with decide (i < length items /\ i - 1 < length format) => {
    | left _ =>
        do h <- index format (i - 1);
        match infoSetters h with
        | Some set =>
            do item <- index items i;
            do overview' <- set overview item;
            overviewLoop items format (S i) overview'
        | None => overviewLoop items format (S i) overview
        end
    | right _ => Ok overview }.
Proof. all: lia. Qed.

Definition parseArticleOverview (line : string) (format : list OverHeader)
  : res ArticleOverview :=
  let items := Split line TAB in
  let res := emptyOverview in
  do item0 <- index items 0;
  do id <- ParseUint item0 64;
  overviewLoop items format 1 (setId res id).

(** The block [if len(c.overViewFormat) == 0 { fmt, err := c.overviewFmt();
    if err != nil { return nil, err }; c.overViewFormat = fmt }] with which
    [Over], [XOver] and [Xzver] each begin. *)
Definition ensureOverViewFormat : st Client unit :=
  fun c =>
    if decide (length (overViewFormat c) = 0)
    then (exec fmt <- overviewFmt; setOverViewFormat fmt) c
    else (c, Ok tt).

(** The loop of [Over] over the results of [c.conn.ReadLine()].  A read
    error assigns [err] and breaks; the function then ends in
    [return v, nil]. *)
Fixpoint overLines (format : list OverHeader) (ls : list (rd string))
    (v : list ArticleOverview) : list (rd string) * res (list ArticleOverview) :=
  match ls with
  | [] => ([], Ok v)
  | Fail err :: ls' => (ls', Ok v)
  | Data line :: ls' =>
      match cutDot line with
      | None => (ls', Ok v)
      | Some line' =>
          match parseArticleOverview line' format with
          | Ok art => overLines format ls' (v ++ [art])
          | Err e => (ls', Err e)
          | Panic p => (ls', Panic p)
          end
      end
  end.

Definition Over (start end_ : Z) : st Client (list ArticleOverview) :=
  exec _ <- ensureOverViewFormat;
  let cmd := "OVER " +:+ formatInt start +:+ "-" +:+ formatInt end_ in
  exec _ <- Command cmd 224;
  fun c =>
    let k := conn c in
    let '(ls', r) := overLines (overViewFormat c) (lines k) [] in
    (setConn c {| sent := sent k; writes := writes k; lines := ls';
                  chunks := chunks k |}, r).

Definition EnableCompression : st Client unit :=
  exec _ <- Command "XFEATURE COMPRESS GZIP" 290;
  setCompress true.

(** The loop of the compressed branch of [readDotLines]; [f] is the
    callback, [s] the variables it captures. *)
Equations? compressedLines {St} (f : St -> string -> St * res unit)
    (reader : bufReader) (s : St) : St * res unit
    by wf (String.length (pending reader)) lt :=
  compressedLines f reader s with Logic.inspect (ReadString reader LF) => {
    | exist _ (reader', (line, Some EOF)) _ => (s, Ok tt)
    | exist _ (reader', (line, Some err)) _ => (s, Err err)
    | exist _ (reader', (line, None)) _ =>
        match f s (TrimSpace line) with
        | (s', Ok _) => compressedLines f reader' s'
        | (s', Err e) => (s', Err e)
        | (s', Panic p) => (s', Panic p)
        end }.
Proof.
  match goal with H : ReadString _ _ = _ |- _ => revert H end.
  unfold ReadString. clear.
  destruct (cutAt LF (pending reader)) as [[l0 r0]|] eqn:E; [|discriminate].
  intros [= <- _]; simpl.
  revert l0 r0 E. induction (pending reader) as [|c p IH]; intros l0 r0 E.
  - discriminate.
  - simpl in E. destruct (decide (c = LF)).
    + injection E as <- <-. simpl. lia.
    + destruct (cutAt LF p) as [[l' r']|]; [|discriminate].
      injection E as <- <-. specialize (IH _ _ eq_refl). simpl. lia.
Qed.

(** The loop of the uncompressed branch of [readDotLines] over the results
    of [c.conn.ReadLine()]. *)
Fixpoint plainLines {St} (f : St -> string -> St * res unit)
    (ls : list (rd string)) (s : St) : list (rd string) * St * res unit :=
  match ls with
  | [] => ([], s, Err ErrUnexpectedEOF)
  | Fail err :: ls' =>
      (ls', s, Err (match err with EOF => ErrUnexpectedEOF | _ => err end))
  | Data line :: ls' =>
      match cutDot line with
      | None => (ls', s, Ok tt)
      | Some line' =>
          match f s line' with
          | (s', Ok _) => plainLines f ls' s'
          | (s', Err e) => (ls', s', Err e)
          | (s', Panic p) => (ls', s', Panic p)
          end
      end
  end.

Definition readDotLines {St} (f : St -> string -> St * res unit)
  : st (Client * St) unit :=
  fun '(c, s) =>
    if compress c then
      let '(k, r) := getCompressedReader zlibNewReader (conn c) in
      match r with
      | Ok reader =>
          let '(s', r') := compressedLines f reader s in ((setConn c k, s'), r')
      | Err e => ((setConn c k, s), Err e)
      | Panic p => ((setConn c k, s), Panic p)
      end
    else
      let k := conn c in
      let '(ls', s', r) := plainLines f (lines k) s in
      ((setConn c {| sent := sent k; writes := writes k; lines := ls';
                     chunks := chunks k |}, s'), r).

Definition XOver (start end_ : Z) : st Client (list ArticleOverview) :=
  exec _ <- ensureOverViewFormat;
  let cmd := "XOVER " +:+ formatInt start +:+ "-" +:+ formatInt end_ in
  exec _ <- Command cmd 224;
  fun c =>
    let f := fun (v : list ArticleOverview) (line : string) =>
      match parseArticleOverview line (overViewFormat c) with
      | Ok art => (v ++ [art], Ok tt)
      | Err e => (v, Err e)
      | Panic p => (v, Panic p)
      end in
    let '((c', v), r) := readDotLines f (c, []) in
    (c', do _ <- r; Ok v).

(** [Xzver] returns [nil, err] on every path; the hex dump it prints goes
    to the standard output, which is not part of the client. *)
Definition Xzver (start end_ : Z) : st Client (list ArticleOverview) :=
  exec _ <- ensureOverViewFormat;
  let cmd := "XZVER " +:+ formatInt start +:+ "-" +:+ formatInt end_ in
  exec _ <- Command cmd 224;
  exec _ <- onConn (fun k =>
    let '(R', r) := yencDecode (chunks k) in
    ({| sent := sent k; writes := writes k; lines := lines k; chunks := R' |}, r));
  st_ret [].
End Collaborators.

Section Posting.
(** The [io.Reader] that [Post] is handed, and what [io.Copy(w, r)] and
    [w.Close()] do to the connection and return, [w] being
    [c.conn.DotWriter()]. *)
Variable Reader : Type.
Variable copyDot : Reader -> st Conn unit.
Variable closeDot : st Conn unit.

(** [Post].  The result of [w.Close()] is not looked at. *)
Definition Post (r : Reader) : st Client unit :=
  exec _ <- onConn (PrintfLine "POST");
  exec _ <- onConn (ReadCodeLine 340);
  exec _ <- onConn (copyDot r);
  exec _ <- onConn (fun k =>
    let '(k', rc) := closeDot k in
    (k', match rc with Panic p => Panic p | _ => Ok tt end));
  exec _ <- onConn (ReadCodeLine 240);
  st_ret tt.
End Posting.

End Client.

(** * Notions the properties are stated with *)

Module Scanner.
Import RingBuffer.

(** Successive writes into a scanner. *)
Fixpoint writeAll (b : ringBuffer) (ws : list (list byte)) : res ringBuffer :=
  match ws with
  | [] => Ok b
  | w :: ws' => do b' <- Write b w; writeAll b' ws'
  end.

(** The answer of a fresh scanner for [terminator] after the writes [ws]. *)
Definition scan (terminator : list byte) (ws : list (list byte)) : res bool :=
  do b <- writeAll (newRingBuffer (length terminator)) ws;
  Equals b terminator.

(** The states [newRingBuffer] and [Write] produce: [position] is never
    advanced, so it stays 0. *)
Definition wf (b : ringBuffer) : Prop :=
  length (Buffer b) = Capacity b /\ position b = 0 /\ used b <= Capacity b.

End Scanner.

Module Overview.
Import Client.

(** The setters of the schema positions, applied in order, each to the
    field it faces. *)
Fixpoint applySetters (parseDate : string -> res Time)
    (pairs : list (OverHeader * string)) (r : ArticleOverview) : res ArticleOverview :=
  match pairs with
  | [] => Ok r
  | (h, item) :: ps =>
      match infoSetters parseDate h with
      | Some set => do r' <- set r item; applySetters parseDate ps r'
      | None => applySetters parseDate ps r
      end
  end.

(** The field that the setter of [h] assigns has its zero value. *)
Definition fieldUnset (h : OverHeader) (r : ArticleOverview) : Prop :=
  if decide (h = OverHeaderSubject) then Subject r = EmptyString
  else if decide (h = OverHeaderFrm) then From_ r = EmptyString
  else if decide (h = OverHeaderDate) then Date r = zeroTime
  else if decide (h = OverHeaderMsgId) then MessageId r = EmptyString
  else if decide (h = OverHeaderReferences) then References r = EmptyString
  else if decide (h = OverHeaderLines) then Lines r = 0%Z
  else if decide (h = OverHeaderXRefFull) then XRef r = EmptyString
  else if decide (h = OverHeaderBytes) then Bytes r = 0%Z
  else True.

(** The field that the setter of [h] assigns holds what that setter makes of
    [item]: the text itself, the number that [strconv.ParseUint] reads, or
    the time that [parseDate] returns. *)
Definition fieldHolds (parseDate : string -> res Time) (h : OverHeader)
    (item : string) (r : ArticleOverview) : Prop :=
  if decide (h = OverHeaderSubject) then Subject r = item
  else if decide (h = OverHeaderFrm) then From_ r = item
  else if decide (h = OverHeaderDate) then parseDate item = Ok (Date r)
  else if decide (h = OverHeaderMsgId) then MessageId r = item
  else if decide (h = OverHeaderReferences) then References r = item
  else if decide (h = OverHeaderLines) then ParseUint item 32 = Ok (Lines r)
  else if decide (h = OverHeaderXRefFull) then XRef r = item
  else if decide (h = OverHeaderBytes) then ParseUint item 32 = Ok (Bytes r)
  else True.

(** [strings.Join(fields, "\t")] *)
Fixpoint joinTabs (fields : list string) : string :=
  match fields with
  | [] => EmptyString
  | [x] => x
  | x :: xs => x +:+ String TAB (joinTabs xs)
  end.

(** The schema and the line of the example of the specification. *)
Definition exampleSchema : list OverHeader :=
  [OverHeaderSubject; OverHeaderFrm; OverHeaderDate; OverHeaderMsgId;
   OverHeaderReferences; OverHeaderBytes; OverHeaderLines; OverHeaderXRefFull].

Definition exampleDate : string := "Thu, 03 Jan 19 18:58:44 UTC".

Definition exampleLine : string :=
  joinTabs ["12345"; "Hello World"; "user@example.com"; exampleDate;
            "<abc@example>"; ""; "1024"; "20"; "Xref: full"].

(** A [parseDate] that knows the two dates that the test [TestParseDate] of
    the repository requires to parse: both are 2019-01-03 18:58:44 UTC. *)
Definition testParseDate (s : string) : res Time :=
  if decide (s = "Thu, 03 Jan 19 18:58:44 UTC") then Ok 63682138724%Z
  else if decide (s = "Thu, 03 Jan 2019 18:58:44 +0000 (UTC)") then Ok 63682138724%Z
  else Err (OtherError "Could not find format").

End Overview.

Module Session.
Import Textproto Client.


(** The commands that a call taking the client from [c] to [c'] has
    issued. *)
Definition issued (c c' : Client) : list string :=
  drop (length (sent (conn c))) (sent (conn c')).


(** A callback that records the lines it is handed. *)
Definition recorder (v : list string) (line : string) : list string * res unit :=
  (v ++ [line], Ok tt).

(** Following the specification: a line that begins with the marker loses
    one copy of it. *)
Definition unstuff (line : string) : string :=
  match line with
  | String c rest => if decide (c = DOT) then rest else line
  | EmptyString => line
  end.

(** The lines of [text] that are complete, each with the [LF] that ends
    it; [cur] is the beginning of the current line. *)
Fixpoint linesFrom (cur text : string) : list string :=
  match text with
  | EmptyString => []
  | String c rest =>
      if decide (c = LF) then (cur +:+ String c EmptyString) :: linesFrom EmptyString rest
      else linesFrom (cur +:+ String c EmptyString) rest
  end.

Definition completeLines (text : string) : list string := linesFrom EmptyString text.

(** A line without its line ending ([CR LF] or [LF]). *)
Definition chomp (line : string) : string :=
  let l := list_ascii_of_string line in
  match rev l with
  | c1 :: c2 :: r =>
      if decide (c1 = LF) then
        if decide (c2 = CR) then string_of_list_ascii (rev r)
        else string_of_list_ascii (rev (c2 :: r))
      else line
  | [c1] => if decide (c1 = LF) then EmptyString else line
  | [] => line
  end.

Definition mkPlainClient (fmt : list OverHeader) (ls : list (rd string)) : Client :=
  {| conn := {| sent := []; writes := []; lines := ls; chunks := [] |};
     overViewFormat := fmt; capabilities := []; loadedCapabilities := false;
     Banner := "200 ready"; compress := false |}.

Definition mkCompressedClient (fmt : list OverHeader)
    (cs : list (rd (list byte))) : Client :=
  {| conn := {| sent := []; writes := []; lines := []; chunks := cs |};
     overViewFormat := fmt; capabilities := []; loadedCapabilities := false;
     Banner := "200 ready"; compress := true |}.

(** Collaborators for the examples: a decompressor whose output is [text], one
    that rejects its input, and a yenc decoder that finds an empty part. *)
Definition zlibOf (text : string) : list byte -> res bufReader :=
  fun _ => Ok {| pending := text; final := EOF |}.

Definition noZlib : list byte -> res bufReader :=
  fun _ => Err (OtherError "zlib: invalid header").

Definition emptyYenc : st (list (rd (list byte))) (list byte) :=
  fun R => (R, Ok []).

Definition CRLF : string := String CR (String LF EmptyString).

End Session.

Module MoreNotions.
Import Textproto Client Session.

(** The callback [f] applied to the lines in order, until it fails. *)
Fixpoint feed {St} (f : St -> string -> St * res unit) (ls : list string) (s : St)
  : St * res unit :=
  match ls with
  | [] => (s, Ok tt)
  | l :: ls' =>
      match f s l with
      | (s', Ok _) => feed f ls' s'
      | (s', Err e) => (s', Err e)
      | (s', Panic p) => (s', Panic p)
      end
  end.

(** The callback that [XOver] hands to [readDotLines], for the schema [fmt]. *)
Definition collect (parseDate : string -> res Time) (fmt : list OverHeader)
    (v : list ArticleOverview) (line : string) : list ArticleOverview * res unit :=
  match parseArticleOverview parseDate line fmt with
  | Ok art => (v ++ [art], Ok tt)
  | Err e => (v, Err e)
  | Panic p => (v, Panic p)
  end.

(** The byte [ch] does not occur in [s]. *)
Definition lacks (ch : ascii) (s : string) : Prop :=
  forall i, String.get i s <> Some ch.

(** A string without ['%'], which [PrintfLine] writes as it is when the
    string is its format. *)
Definition noVerb (s : string) : Prop := lacks "%"%char s.

(** The line that ends a multi-line response. *)
Definition endLine : string := String DOT EmptyString.

(** What [Article], [Head] and [Body] have in common; [op] is one of them,
    [verb] its command word and [expected] the code it expects.  The
    command line is the only thing written.  When it cannot be written,
    nothing is read.  Of an accepted reply [a b], where [a] is an integer
    without a space in it, the number [a] and the text [b] after the first
    space are returned, spaces of [b] included; an accepted reply that is
    an integer and nothing else makes [parts[1]] panic. *)
Definition retrieves (op : string -> st Client (Z * string)) (verb : string)
    (expected : Z) : Prop :=
  forall spec c,
    let c' := (op spec c).1 in
    issued c c' = [verb +:+ spec]
    /\ (forall e ws, writes (conn c) = Some e :: ws ->
          (op spec c).2 = Err e /\ lines (conn c') = lines (conn c))
    /\ (forall c0 c1 code a b n,
          onConn (PrintfLine (verb +:+ spec)) c = (c0, Ok tt) ->
          onConn (ReadCodeLine expected) c0
            = (c1, Ok (code, a +:+ String " " b)) ->
          lacks " "%char a ->
          ParseInt a 64 = Ok n ->
          op spec c = (c1, Ok (n, b)))
    /\ (forall c0 c1 code msg n,
          onConn (PrintfLine (verb +:+ spec)) c = (c0, Ok tt) ->
          onConn (ReadCodeLine expected) c0 = (c1, Ok (code, msg)) ->
          lacks " "%char msg ->
          ParseInt msg 64 = Ok n ->
          op spec c = (c1, Panic IndexOutOfRange)).

(** A status line with the code [code] and the text [msg]. *)
Definition replyLine (code : Z) (msg : string) : string :=
  formatInt code +:+ String " " msg.

(** [code] is written with three digits that [strconv.Atoi] reads back. *)
Definition threeDigits (code : Z) : bool :=
  match formatInt code with
  | String a (String b (String c EmptyString)) =>
      match Atoi (String a (String b (String c EmptyString))) with
      | Ok m => (m =? code)%Z
      | _ => false
      end
  | _ => false
  end.

(** Collaborators of [Post] for the examples: an article given by its lines,
    which the copy hands to the connection, and a [Close] that fails. *)
Definition copyLines (r : list string) : st Conn unit :=
  fun k => ({| sent := sent k ++ r; writes := writes k; lines := lines k;
               chunks := chunks k |}, Ok tt).

Definition closeFails : st Conn unit :=
  fun k => ({| sent := sent k ++ ["."]; writes := writes k; lines := lines k;
               chunks := chunks k |}, Err (OtherError "broken pipe")).

(** The groups among the results of the lines of a list. *)
Fixpoint groupsOf (ogs : list (option nntp.Group)) : list nntp.Group :=
  match ogs with
  | [] => []
  | Some g :: ogs' => g :: groupsOf ogs'
  | None :: ogs' => groupsOf ogs'
  end.

(** A line of which [List] cannot take the fields it indexes: fewer than
    three fields, or three of which the second and third are integers (the
    fourth is then indexed). *)
Definition tooShortForList (l : string) : Prop :=
  length (Split l " "%char) < 3
  \/ exists name high low h lo,
       Split l " "%char = [name; high; low]
       /\ ParseInt high 64 = Ok h /\ ParseInt low 64 = Ok lo.

(** What [List] makes of a line of the reply: a group, when the line has at
    least four fields and the second and third are integers; nothing, when it
    has at least three fields and the second or the third is no integer. *)
Definition listedAs (l : string) (og : option nntp.Group) : Prop :=
  match og with
  | Some g =>
      exists name high low flag more,
        Split l " "%char = name :: high :: low :: flag :: more
        /\ ParseInt high 64 = Ok (nntp.High g)
        /\ ParseInt low 64 = Ok (nntp.Low g)
        /\ g = {| nntp.Name := name; nntp.High := nntp.High g;
                  nntp.Low := nntp.Low g; nntp.Count := 0;
                  nntp.Posting := parsePosting flag |}
  | None =>
      exists name high low more,
        Split l " "%char = name :: high :: low :: more
        /\ ((exists e, ParseInt high 64 = Err e) \/ (exists e, ParseInt low 64 = Err e))
  end.

End MoreNotions.

(** * Properties *)

(** ** The terminator scanner *)
Module RingBufferFacts.
Import RingBuffer Scanner.

Lemma wf_new cap : wf (newRingBuffer cap).
Proof. unfold wf; simpl. rewrite length_replicate. lia. Qed.

(** [n] iterations of the loop of [Write] from index [i] overwrite the
    slots [i .. i+n-1] with [buf[start+i .. start+i+n-1]]. *)
Lemma forRange_writeStep buf start n : forall i b,
  wf b -> i + n <= Capacity b -> start + i + n <= length buf ->
  forRange (writeStep buf start) i n b =
    Ok {| Capacity := Capacity b;
          Buffer := take i (Buffer b) ++ take n (drop (start + i) buf)
                    ++ drop (i + n) (Buffer b);
          position := 0;
          used := Nat.min (Capacity b) (used b + n) |}.
Proof.
  induction n as [|n IH]; intros i b (Hlen & Hpos & Hused) Hi Hbuf.
  - simpl. rewrite !Nat.add_0_r, take_drop, Nat.min_r by lia.
    destruct b; simpl in *; subst; reflexivity.
  - cbn [forRange]. unfold writeStep at 1. unfold index.
    destruct (lookup_lt_is_Some_2 buf (start + i)) as [x Hx]; [lia|].
    rewrite Hx. cbn [res_bind]. rewrite Hpos, Nat.add_0_l, Nat.mod_small by lia.
    destruct (decide (i < length (Buffer b))) as [_|]; [|lia].
    cbn [res_bind]. rewrite IH; cbn [Capacity Buffer position used].
    + f_equal. f_equal.
      * destruct (lookup_lt_is_Some_2 (Buffer b) i) as [y Hy]; [lia|].
        rewrite (take_S_r (<[i:=x]> (Buffer b)) i x)
          by (apply list_lookup_insert_eq; lia).
        rewrite take_insert_ge by lia.
        rewrite drop_insert_lt by lia.
        rewrite (drop_S buf x (start + i)) by exact Hx.
        rewrite <- Nat.add_succ_r, <- app_assoc.
        replace (S i + n) with (i + S n) by lia. reflexivity.
      * destruct (decide (used b < Capacity b)); lia.
    + unfold wf; cbn [Capacity Buffer position used].
      rewrite length_insert. destruct (decide (used b < Capacity b)); lia.
    + lia.
    + lia.
Qed.

(** [Write] on a reachable state never panics: it overwrites the first
    [count] slots with the last [count] bytes of [buf]. *)
Lemma Write_spec b buf :
  wf b ->
  let count := Nat.min (Capacity b) (length buf) in
  Write b buf =
    Ok {| Capacity := Capacity b;
          Buffer := drop (length buf - count) buf ++ drop count (Buffer b);
          position := 0;
          used := Nat.min (Capacity b) (used b + count) |}.
Proof.
  intros Hwf count. unfold Write.
  assert ((if decide (length buf < Capacity b) then length buf else Capacity b)
          = count) as -> by (subst count; destruct (decide _); lia).
  rewrite forRange_writeStep by (try assumption; lia).
  f_equal. f_equal. rewrite take_0, Nat.add_0_r. cbn [app].
  rewrite take_ge by (rewrite length_drop; lia). reflexivity.
Qed.

Lemma Write_wf b buf b' : wf b -> Write b buf = Ok b' -> wf b'.
Proof.
  intros Hwf. rewrite Write_spec by assumption. intros [= <-].
  destruct Hwf as (Hlen & Hpos & Hused). unfold wf; cbn [Capacity Buffer position used].
  rewrite length_app, !length_drop. lia.
Qed.

Lemma equalsLoop_spec b buf n : forall i,
  wf b -> i + n <= Capacity b -> i + n <= length buf ->
  equalsLoop b buf i n =
    Ok (bool_decide (take n (drop i (Buffer b)) = take n (drop i buf))).
Proof.
  induction n as [|n IH]; intros i Hwf Hi Hbuf.
  - reflexivity.
  - destruct Hwf as (Hlen & Hpos & Hused). cbn [equalsLoop].
    destruct (decide (Capacity b = 0)); [lia|].
    rewrite Hpos, Nat.add_0_l, Nat.mod_small by lia. unfold index.
    destruct (lookup_lt_is_Some_2 (Buffer b) i) as [x Hx]; [lia|].
    destruct (lookup_lt_is_Some_2 buf i) as [y Hy]; [lia|].
    rewrite Hx, Hy. cbn [res_bind].
    rewrite (drop_S _ _ _ Hx), (drop_S _ _ _ Hy). cbn [take].
    destruct (decide (x <> y)) as [Hne|Heq].
    + rewrite bool_decide_eq_false_2; [reflexivity|]. intros [= ? _]. contradiction.
    + apply dec_stable in Heq. subst y.
      rewrite IH by (unfold wf; auto with lia).
      f_equal. apply bool_decide_ext. split; [intros ->; reflexivity|].
      intros [= ?]; assumption.
Qed.

(** [Equals] on a reachable state compares [buf] with the first [used]
    slots. *)
Lemma Equals_spec b buf :
  wf b -> Equals b buf = Ok (bool_decide (buf = take (used b) (Buffer b))).
Proof.
  intros Hwf. pose proof Hwf as (Hlen & Hpos & Hused). unfold Equals.
  destruct (decide (length buf <> used b)) as [Hne|Heq].
  - rewrite bool_decide_eq_false_2; [reflexivity|].
    intros ->. apply Hne. rewrite length_take. lia.
  - apply dec_stable in Heq.
    rewrite equalsLoop_spec by (try assumption; lia).
    f_equal. apply bool_decide_ext. rewrite !drop_0, <- Heq, firstn_all.
    split; intros E; symmetry; exact E.
Qed.

(** A stream that ends in the terminator, written at once into a fresh
    scanner, is reported as a match, whatever the length of the terminator. *)
Lemma scan_single_write (terminator pre : list byte) :
  scan terminator [pre ++ terminator] = Ok true.
Proof.
  unfold scan. cbn [writeAll].
  rewrite Write_spec by apply wf_new. cbn [res_bind].
  rewrite Equals_spec.
  - cbn [used Buffer Capacity newRingBuffer]. f_equal. apply bool_decide_eq_true_2.
    rewrite length_app, Nat.add_0_l.
    replace (Nat.min (length terminator) (length pre + length terminator))
      with (length terminator) by lia.
    replace (length pre + length terminator - length terminator)
      with (length pre) by lia.
    rewrite drop_app_length, Nat.min_id, take_app_length. reflexivity.
  - eapply Write_wf; [apply wf_new|]. apply Write_spec, wf_new.
Qed.

(** C1: the terminator [".\r\n"] delivered one byte per write is not
    reported, although the same three bytes in one write are: every write
    starts again at slot 0, because [Write] never advances [position]. *)
Theorem C1_split_terminator_is_missed :
  scan Compressed.term [[x2e]; [x0d]; [x0a]] = Ok false
  /\ scan Compressed.term [[x2e; x0d; x0a]] = Ok true.
Proof. split; vm_compute; reflexivity. Qed.

End RingBufferFacts.

(** ** The envelope reader *)
Module CompressedFacts.
Import RingBuffer Scanner RingBufferFacts Compressed.

(** A chunk of three bytes or more replaces the whole window: the scanner
    then answers whether the chunk ends in the terminator. *)
Lemma step_long_chunk rb sl :
  wf rb -> Capacity rb = 3 -> 3 <= length sl ->
  exists rb', wf rb' /\ Capacity rb' = 3 /\
    (do rb' <- Write rb sl; do m <- Equals rb' term; Ok (rb', m))
    = Ok (rb', bool_decide (drop (length sl - 3) sl = term)).
Proof.
  intros Hwf Hcap Hlen. pose proof Hwf as (HB & _ & _).
  pose proof (Write_spec rb sl Hwf) as HW. cbv zeta in HW.
  rewrite Hcap in HW. replace (Nat.min 3 (length sl)) with 3 in HW by lia.
  replace (Nat.min 3 (used rb + 3)) with 3 in HW by lia.
  rewrite (drop_ge (Buffer rb)), app_nil_r in HW by lia.
  eexists. split; [eapply Write_wf; eassumption|]. split; [reflexivity|].
  rewrite HW. cbn [res_bind]. rewrite Equals_spec by (eapply Write_wf; eassumption).
  cbn [res_bind used Buffer]. do 2 f_equal.
  rewrite take_ge by (rewrite length_drop; lia).
  apply bool_decide_ext. split; intros E; symmetry; exact E.
Qed.

(** What [readCompressed] does achieve: when every chunk has three bytes or
    more and the first chunk to end in the terminator is [pre ++ term], it
    stops there with exactly the bytes before the terminator. *)
Lemma readLoop_whole_terminator chunks : forall rb istream pre rest,
  wf rb -> Capacity rb = 3 ->
  Forall (fun c => 3 <= length c /\ drop (length c - 3) c <> term) chunks ->
  readLoop (map Data chunks ++ Data (pre ++ term) :: rest) rb istream
  = (rest, istream ++ concat chunks ++ pre, Ok tt).
Proof.
  induction chunks as [|c chunks IH]; intros rb istream pre rest Hwf Hcap Hall.
  - cbn [map app readLoop concat].
    destruct (step_long_chunk rb (pre ++ term) Hwf Hcap) as (rb' & _ & _ & ->).
    { rewrite length_app; simpl; lia. }
    rewrite bool_decide_eq_true_2.
    2:{ rewrite length_app. cbn [length term].
        replace (length pre + 3 - 3) with (length pre) by lia.
        apply drop_app_length. }
    rewrite length_app. cbn [length term].
    destruct (decide (length pre + 3 < 3)); [lia|].
    replace (length pre + 3 - 3) with (length pre) by lia.
    rewrite take_app_length. reflexivity.
  - apply Forall_cons in Hall as [[Hlen Hne] Hall].
    cbn [map app readLoop concat].
    destruct (step_long_chunk rb c Hwf Hcap Hlen) as (rb' & Hwf' & Hcap' & ->).
    rewrite bool_decide_eq_false_2 by exact Hne.
    rewrite IH by assumption. rewrite <- !app_assoc. reflexivity.
Qed.

(** On chunks of three bytes or more [readCompressed] does not panic. *)
Lemma readLoop_long_chunks_no_panic R : forall rb istream p,
  wf rb -> Capacity rb = 3 ->
  Forall (fun r => match r with Data c => 3 <= length c | Fail _ => True end) R ->
  (readLoop R rb istream).2 <> Panic p.
Proof.
  induction R as [|[c|e] R IH]; intros rb istream p Hwf Hcap Hall;
    [discriminate| |discriminate].
  apply Forall_cons in Hall as [Hlen Hall]. cbn [readLoop].
  destruct (step_long_chunk rb c Hwf Hcap Hlen) as (rb' & Hwf' & Hcap' & ->).
  destruct (bool_decide _).
  - destruct (decide (length c < 3)); [lia|discriminate].
  - apply IH; assumption.
Qed.

(** A last chunk that holds only the end of the terminator, ["\n"] or
    ["\r\n"], is written from slot 0 on: the window then begins with ['\n']
    or ['\r'], and the scanner reports no match, whatever came before. *)
Lemma step_terminator_tail rb sl :
  wf rb -> Capacity rb = 3 ->
  sl = [x0a] \/ sl = [x0d; x0a] ->
  exists rb', wf rb' /\ Capacity rb' = 3 /\
    (do rb' <- Write rb sl; do m <- Equals rb' term; Ok (rb', m)) = Ok (rb', false).
Proof.
  intros Hwf Hcap Hsl. pose proof Hwf as (HB & _ & Hused).
  pose proof (Write_spec rb sl Hwf) as HW. cbv zeta in HW.
  rewrite Hcap in HW, Hused.
  eexists. split; [eapply Write_wf; eassumption|]. split; [reflexivity|].
  rewrite HW. cbn [res_bind]. rewrite Equals_spec by (eapply Write_wf; eassumption).
  cbn [res_bind used Buffer]. do 2 f_equal.
  apply bool_decide_eq_false_2.
  destruct Hsl as [-> | ->]; cbn [length Nat.min Nat.sub drop app];
    (destruct (used rb) as [|[|[|u]]]; cbn [Nat.add Nat.min take];
     unfold term; discriminate).
Qed.

(** So a terminator split before its last or its last two bytes is never
    found: [readCompressed] copies it into the buffer and fails at the end
    of the stream. *)
Lemma readLoop_split_terminator chunks : forall rb istream sl,
  wf rb -> Capacity rb = 3 ->
  Forall (fun c => 3 <= length c /\ drop (length c - 3) c <> term) chunks ->
  sl = [x0a] \/ sl = [x0d; x0a] ->
  readLoop (map Data chunks ++ [Data sl]) rb istream
  = ([], istream ++ concat chunks ++ sl, Err EOF).
Proof.
  induction chunks as [|c chunks IH]; intros rb istream sl Hwf Hcap Hall Hsl.
  - cbn [map app readLoop concat].
    destruct (step_terminator_tail rb sl Hwf Hcap Hsl) as (rb' & _ & _ & ->).
    reflexivity.
  - apply Forall_cons in Hall as [[Hlen Hne] Hall].
    cbn [map app readLoop concat].
    destruct (step_long_chunk rb c Hwf Hcap Hlen) as (rb' & Hwf' & Hcap' & ->).
    rewrite bool_decide_eq_false_2 by exact Hne.
    rewrite IH by assumption. rewrite <- !app_assoc. reflexivity.
Qed.

(** C2: with the terminator split between two chunks, ["ab."] then
    ["\r\n"], [readCompressed] does not stop at the terminator: it reads on to
    the end of the stream, fails with [io.EOF], and has copied the three
    terminator bytes into the buffer. *)
Theorem C2_split_terminator_reads_past_it :
  readCompressed [Data [x61; x62; x2e]; Data [x0d; x0a]] []
  = ([], [x61; x62; x2e; x0d; x0a], Err EOF).
Proof. vm_compute. reflexivity. Qed.

(** C9: after the chunk ["a\r\n"], the one-byte chunk ["."] overwrites slot 0
    and the window reads [".\r\n"]: the scanner reports a match with
    [br = 1], and [sl[0 : br-3]] panics. *)
Theorem C9_match_on_short_chunk_panics :
  readCompressed [Data [x61; x0d; x0a]; Data [x2e]] []
  = ([], [x61; x0d; x0a], Panic SliceBoundsOutOfRange).
Proof. vm_compute. reflexivity. Qed.

End CompressedFacts.

(** ** The overview record parser *)
Module OverviewFacts.
Import Client Overview.

Lemma Split_nonempty s sep : exists x xs, Split s sep = x :: xs.
Proof.
  induction s as [|c s IH]; simpl; [eauto|].
  destruct (decide (c = sep)); [eauto|].
  destruct IH as (x & xs & ->). eauto.
Qed.

(** A separator followed by more text only adds fields at the end. *)
Lemma Split_app_sep s extra sep :
  Split (s +:+ String sep extra) sep = Split s sep ++ Split extra sep.
Proof.
  induction s as [|c s IH]; simpl.
  - destruct (decide (sep = sep)); [reflexivity|contradiction].
  - destruct (decide (c = sep)); [rewrite IH; reflexivity|].
    rewrite IH. destruct (Split_nonempty s sep) as (x & xs & ->). reflexivity.
Qed.

Section WithParseDate.
Variable parseDate : string -> res Time.

(** The index loop of [parseArticleOverview] is the fold of the setters
    over the schema zipped with the fields: it ends with the shorter one. *)
Lemma overviewLoop_zip items format n : forall i r,
  length items - i <= n -> 1 <= i ->
  overviewLoop parseDate items format i r
  = applySetters parseDate (zip (drop (i - 1) format) (drop i items)) r.
Proof.
  induction n as [|n IH]; intros i r Hn Hi; rewrite overviewLoop_equation_1;
    destruct (decide (i < length items /\ i - 1 < length format)) as [[H1 H2]|Hno];
    cbn [overviewLoop_unfold_clause_1]; try lia.
  - destruct (decide (i < length items)).
    + rewrite (drop_ge format) by lia. reflexivity.
    + rewrite (drop_ge items) by lia. rewrite zip_with_nil_r. reflexivity.
  - destruct (lookup_lt_is_Some_2 format (i - 1) H2) as [h Hh].
    destruct (lookup_lt_is_Some_2 items i H1) as [item Hitem].
    unfold index. rewrite Hh, Hitem. cbn [res_bind].
    rewrite (drop_S _ _ _ Hh), (drop_S _ _ _ Hitem). cbn [zip_with applySetters].
    replace (S (i - 1)) with (S i - 1) by lia.
    destruct (infoSetters parseDate h) as [set|].
    + cbn [res_bind]. destruct (set r item); cbn [res_bind]; try reflexivity.
      apply IH; lia.
    + apply IH; lia.
  - destruct (decide (i < length items)).
    + rewrite (drop_ge format) by lia. reflexivity.
    + rewrite (drop_ge items) by lia. rewrite zip_with_nil_r. reflexivity.
Qed.

Lemma parseArticleOverview_zip line format :
  parseArticleOverview parseDate line format
  = match Split line TAB with
    | item0 :: items =>
        do id <- ParseUint item0 64;
        applySetters parseDate (zip format items)
          {| Id := id; Subject := EmptyString; From_ := EmptyString;
             Date := zeroTime; MessageId := EmptyString;
             References := EmptyString; Bytes := 0; Lines := 0;
             XRef := EmptyString |}
    | [] => Panic IndexOutOfRange
    end.
Proof.
  unfold parseArticleOverview.
  destruct (Split line TAB) as [|item0 items]; [reflexivity|].
  cbn [index lookup list_lookup res_bind].
  destruct (ParseUint item0 64); cbn [res_bind]; try reflexivity.
  rewrite (overviewLoop_zip _ _ (length (item0 :: items))) by lia.
  reflexivity.
Qed.

(** A setter assigns its own field only. *)
Lemma setter_keeps_unset h h' set r item r' :
  infoSetters parseDate h' = Some set -> set r item = Ok r' ->
  h <> h' -> fieldUnset h r -> fieldUnset h r'.
Proof.
  unfold infoSetters. intros Hset Hr Hne Hun.
  repeat (destruct (decide (h' = _)) as [->|?] in Hset;
    [ injection Hset as <-;
      try (destruct (parseDate item); try discriminate);
      try (destruct (ParseUint item 32); try discriminate);
      cbn [res_bind] in Hr; injection Hr as <-;
      unfold fieldUnset in *; repeat case_decide; try contradiction;
      cbn [Subject From_ Date MessageId References Lines Bytes XRef]; assumption
    | ]).
  discriminate.
Qed.

Lemma applySetters_keeps_unset h ps : forall r r',
  applySetters parseDate ps r = Ok r' ->
  h ∉ ps.*1 -> fieldUnset h r -> fieldUnset h r'.
Proof.
  induction ps as [|[h' item] ps IH]; intros r r' Hr Hnot Hun.
  - injection Hr as <-. assumption.
  - cbn [applySetters] in Hr. rewrite fmap_cons, not_elem_of_cons in Hnot.
    destruct Hnot as [Hne Hnot]. cbn [fst] in Hne.
    destruct (infoSetters parseDate h') as [set|] eqn:Hset.
    + destruct (set r item) as [r1| |] eqn:Hr1; cbn [res_bind] in Hr;
        try discriminate.
      eapply IH; [exact Hr|exact Hnot|].
      eapply setter_keeps_unset; eassumption.
    + eapply IH; eassumption.
Qed.

(** An error of the fold is the error of one of its setters. *)
Lemma applySetters_error ps : forall r e,
  applySetters parseDate ps r = Err e ->
  exists h item set r0,
    (h, item) ∈ ps /\ infoSetters parseDate h = Some set /\ set r0 item = Err e.
Proof.
  induction ps as [|[h item] ps IH]; intros r e He; [discriminate|].
  cbn [applySetters] in He.
  destruct (infoSetters parseDate h) as [set|] eqn:Hset.
  - destruct (set r item) as [r1|e1|] eqn:Hr1; cbn [res_bind] in He;
      try discriminate.
    + destruct (IH _ _ He) as (h' & item' & set' & r0 & Hin & Hs' & Hr0).
      exists h', item', set', r0. split; [right; exact Hin|auto].
    + injection He as <-. exists h, item, set, r. split; [left|auto].
  - destruct (IH _ _ He) as (h' & item' & set' & r0 & Hin & Hs' & Hr0).
    exists h', item', set', r0. split; [right; exact Hin|auto].
Qed.

Lemma zip_take_both {A B} (l : list A) : forall k : list B,
  zip (take (length k) l) (take (length l) k) = zip l k.
Proof.
  induction l as [|a l IH]; intros [|b k]; cbn; try reflexivity.
  rewrite IH. reflexivity.
Qed.

(** What [strconv.ParseUint] returns fits the bit size. *)
Lemma parseUintLoop_range s0 m s : forall n r,
  parseUintLoop s0 m s n = Ok r -> (0 <= n <= m)%Z -> (0 <= r <= m)%Z.
Proof.
  induction s as [|c s IH]; intros n r H Hn; cbn [parseUintLoop] in H.
  - injection H as <-. exact Hn.
  - destruct (isDigit c); [|discriminate].
    destruct (_ <=? n)%Z; [discriminate|].
    destruct (_ <? _)%Z eqn:E1; [discriminate|].
    destruct (m <? _)%Z eqn:E2; [discriminate|]. cbn [orb] in H.
    apply (IH _ _ H). apply Z.ltb_ge in E2. split; [|exact E2].
    apply Z.mod_pos_bound. lia.
Qed.

Lemma ParseUint_32 s n : ParseUint s 32 = Ok n -> (n mod 2 ^ 32 = n)%Z.
Proof.
  unfold ParseUint. destruct (decide (s = EmptyString)); [discriminate|].
  intros H. apply parseUintLoop_range in H; [|lia].
  apply Z.mod_small. lia.
Qed.

(** A setter assigns to its field what it makes of the item. *)
Lemma setter_sets h set r item r' :
  infoSetters parseDate h = Some set -> set r item = Ok r' ->
  fieldHolds parseDate h item r'.
Proof.
  unfold infoSetters. intros Hset Hr.
  repeat (destruct (decide (h = _)) as [->|?] in Hset;
    [ injection Hset as <-;
      try (destruct (parseDate item) eqn:Ed; try discriminate);
      try (destruct (ParseUint item 32) eqn:Eu; try discriminate);
      cbn [res_bind] in Hr; injection Hr as <-;
      unfold fieldHolds; repeat case_decide; try congruence;
      cbn [Subject From_ Date MessageId References Lines Bytes XRef];
      try rewrite (ParseUint_32 _ _ Eu); first [reflexivity|assumption]
    | ]).
  discriminate.
Qed.

Lemma no_setter_holds h item r :
  infoSetters parseDate h = None -> fieldHolds parseDate h item r.
Proof.
  unfold infoSetters, fieldHolds. intros H.
  repeat case_decide; try discriminate; exact I.
Qed.

(** The setters of the other tags leave the field as it is. *)
Lemma setter_keeps_field h h' set r item0 item r' :
  infoSetters parseDate h' = Some set -> set r item = Ok r' ->
  h <> h' -> fieldHolds parseDate h item0 r -> fieldHolds parseDate h item0 r'.
Proof.
  unfold infoSetters. intros Hset Hr Hne Hun.
  repeat (destruct (decide (h' = _)) as [->|?] in Hset;
    [ injection Hset as <-;
      try (destruct (parseDate item); try discriminate);
      try (destruct (ParseUint item 32); try discriminate);
      cbn [res_bind] in Hr; injection Hr as <-;
      unfold fieldHolds in *; repeat case_decide; try contradiction;
      cbn [Subject From_ Date MessageId References Lines Bytes XRef]; assumption
    | ]).
  discriminate.
Qed.

Lemma applySetters_keeps_field h item0 ps : forall r r',
  applySetters parseDate ps r = Ok r' ->
  h ∉ ps.*1 -> fieldHolds parseDate h item0 r -> fieldHolds parseDate h item0 r'.
Proof.
  induction ps as [|[h' item] ps IH]; intros r r' Hr Hnot Hun.
  - injection Hr as <-. assumption.
  - cbn [applySetters] in Hr. rewrite fmap_cons, not_elem_of_cons in Hnot.
    destruct Hnot as [Hne Hnot]. cbn [fst] in Hne.
    destruct (infoSetters parseDate h') as [set|] eqn:Hset.
    + destruct (set r item) as [r1| |] eqn:Hr1; cbn [res_bind] in Hr;
        try discriminate.
      eapply IH; [exact Hr|exact Hnot|].
      eapply setter_keeps_field; eassumption.
    + eapply IH; eassumption.
Qed.

(** In the record that the fold returns, a field holds what the setter of
    the last pair with its tag made of that pair's item. *)
Lemma applySetters_sets ps1 h item ps2 : forall r r',
  applySetters parseDate (ps1 ++ (h, item) :: ps2) r = Ok r' ->
  h ∉ ps2.*1 -> fieldHolds parseDate h item r'.
Proof.
  induction ps1 as [|[h1 item1] ps1 IH]; intros r r' Hr Hnot.
  - cbn [app applySetters] in Hr.
    destruct (infoSetters parseDate h) as [set|] eqn:Hset;
      [|apply no_setter_holds, Hset].
    destruct (set r item) as [r1| |] eqn:Hr1; cbn [res_bind] in Hr;
      try discriminate.
    eapply applySetters_keeps_field; [exact Hr|exact Hnot|].
    eapply setter_sets; eassumption.
  - cbn [app applySetters] in Hr.
    destruct (infoSetters parseDate h1) as [set|].
    + destruct (set r item1) as [r1| |]; cbn [res_bind] in Hr; try discriminate.
      eapply IH; eassumption.
    + eapply IH; eassumption.
Qed.

(** C7: [parseArticleOverview] applies setters up to the shorter of the
    schema and the fields after the identifier.  With [n] such fields in
    the line: (1) the schema positions after the [n]th play no part;
    (2) when the schema has at most [n] positions, further fields at the end
    of the line change nothing, the result being an error or not as
    without them; (3) in a record that is returned, every field whose tag
    is not among the first [n] positions of the schema has its zero value;
    (4) an error comes from the identifier or from the setter of a position
    that faces a field, never from the lengths; (5) up to that bound every
    setter is applied: the result is the identifier followed by the setters
    of the schema positions that face a field, each applied to the field it
    faces, in order, the first error ending the parse; (6) so in a record
    that is returned, the field of a schema position that faces a field
    holds what its setter makes of that field, unless a later position
    within the bound has the same tag. *)
Theorem C7_stops_at_the_shorter line format :
  let n := length (Split line TAB) - 1 in
  parseArticleOverview parseDate line (take n format)
    = parseArticleOverview parseDate line format
  /\ (forall extra, length format <= n ->
        parseArticleOverview parseDate (line +:+ String TAB extra) format
        = parseArticleOverview parseDate line format)
  /\ (forall r h, parseArticleOverview parseDate line format = Ok r ->
        h ∉ take n format -> fieldUnset h r)
  /\ (forall e item0 items,
        Split line TAB = item0 :: items ->
        parseArticleOverview parseDate line format = Err e ->
        ParseUint item0 64 = Err e
        \/ exists h item set r,
             (h, item) ∈ zip format items
             /\ infoSetters parseDate h = Some set /\ set r item = Err e)
  /\ (forall item0 items,
        Split line TAB = item0 :: items ->
        parseArticleOverview parseDate line format
        = (do id <- ParseUint item0 64;
           applySetters parseDate (zip (take n format) (take (length format) items))
             (setId emptyOverview id)))
  /\ (forall r i h item,
        parseArticleOverview parseDate line format = Ok r ->
        format !! i = Some h ->
        Split line TAB !! S i = Some item ->
        h ∉ drop (S i) (take n format) ->
        fieldHolds parseDate h item r).
Proof.
  intros n. subst n.
  destruct (Split_nonempty line TAB) as (item0 & items & Hs).
  rewrite Hs. cbn [length]. rewrite Nat.sub_succ, Nat.sub_0_r.
  assert (HA : parseArticleOverview parseDate line (take (length items) format)
               = parseArticleOverview parseDate line format).
  { rewrite !parseArticleOverview_zip, Hs, zip_with_take_l. reflexivity. }
  split; [exact HA|]. split; [|split; [|split; [|split]]].
  - intros extra Hlen.
    rewrite !parseArticleOverview_zip, Split_app_sep, Hs. cbn [app].
    rewrite zip_with_app_r, drop_ge, take_ge by lia.
    cbn [zip_with]. rewrite app_nil_r. reflexivity.
  - intros r h Hr Hnot. rewrite <- HA, parseArticleOverview_zip, Hs in Hr.
    destruct (ParseUint item0 64) as [id| |]; cbn [res_bind] in Hr;
      try discriminate.
    eapply applySetters_keeps_unset; [exact Hr| |].
    + rewrite fst_zip; [exact Hnot|]. rewrite length_take. lia.
    + unfold fieldUnset. repeat case_decide; reflexivity || exact I.
  - intros e item0' items' [= <- <-] He.
    rewrite parseArticleOverview_zip, Hs in He.
    destruct (ParseUint item0 64) as [id| |]; cbn [res_bind] in He;
      try discriminate; [|left; injection He as ->; reflexivity].
    right. eapply applySetters_error. exact He.
  - intros item0' items' [= <- <-].
    rewrite parseArticleOverview_zip, Hs, zip_take_both. reflexivity.
  - intros r i h item Hr Hh Hitem Hnot.
    rewrite parseArticleOverview_zip, Hs in Hr. cbn [lookup list_lookup] in Hitem.
    destruct (ParseUint item0 64) as [id| |]; cbn [res_bind] in Hr;
      try discriminate.
    pose proof (lookup_lt_Some _ _ _ Hh) as Hi1.
    pose proof (lookup_lt_Some _ _ _ Hitem) as Hi2.
    rewrite <- (take_drop_middle format i h Hh) in Hr.
    rewrite <- (take_drop_middle items i item Hitem) in Hr.
    rewrite zip_with_app in Hr by (rewrite !length_take; lia).
    cbn [zip_with] in Hr.
    eapply applySetters_sets; [exact Hr|].
    intros Hin. apply Hnot.
    rewrite <- zip_with_take_l, fst_zip in Hin by (rewrite length_take; lia).
    rewrite length_drop, take_drop_commute in Hin.
    replace (S i + (length items - S i)) with (length items) in Hin by lia.
    exact Hin.
Qed.

(** C8: the example of the specification.  Provided [parseDate] accepts the
    date of the line, as the test [TestParseDate] requires of it, and returns
    a time other than the zero time, the line parses into a record with
    identifier 12345, subject ["Hello World"], 1024 bytes, 20 lines and that
    time as its date. *)
Theorem C8_example_record (t : Time) :
  parseDate exampleDate = Ok t -> t <> zeroTime ->
  exists r, parseArticleOverview parseDate exampleLine exampleSchema = Ok r
    /\ Id r = 12345%Z /\ Subject r = "Hello World"
    /\ Bytes r = 1024%Z /\ Lines r = 20%Z
    /\ Date r = t /\ Date r <> zeroTime.
Proof.
  intros Hdate Hnz. vm_compute in Hdate.
  eexists. split.
  - rewrite parseArticleOverview_zip. vm_compute. rewrite Hdate. reflexivity.
  - cbn [Id Subject Bytes Lines Date]. repeat split; try reflexivity. exact Hnz.
Qed.

End WithParseDate.

Lemma C7_witness :
  let line := joinTabs ["5"; "subject"; "sender"] in
  let r := {| Id := 5; Subject := "subject"; From_ := "sender"; Date := zeroTime;
              MessageId := EmptyString; References := EmptyString; Bytes := 0;
              Lines := 0; XRef := EmptyString |} in
  parseArticleOverview testParseDate (line +:+ String TAB "more") [OverHeaderSubject]
    = parseArticleOverview testParseDate line [OverHeaderSubject]
  /\ fieldUnset OverHeaderBytes r
  /\ parseArticleOverview testParseDate line
       [OverHeaderSubject; OverHeaderFrm; OverHeaderBytes]
     = (do id <- ParseUint "5" 64;
        applySetters testParseDate
          (zip (take 2 [OverHeaderSubject; OverHeaderFrm; OverHeaderBytes])
               (take 3 ["subject"; "sender"]))
          (setId emptyOverview id))
  /\ fieldHolds testParseDate OverHeaderFrm "sender" r.
Proof.
  cbv zeta. split; [|split; [|split]].
  - destruct (C7_stops_at_the_shorter testParseDate
                (joinTabs ["5"; "subject"; "sender"]) [OverHeaderSubject])
      as (_ & H & _).
    apply H. vm_compute. lia.
  - destruct (C7_stops_at_the_shorter testParseDate
                (joinTabs ["5"; "subject"; "sender"])
                [OverHeaderSubject; OverHeaderFrm; OverHeaderBytes])
      as (_ & _ & H & _).
    apply H; [reflexivity|].
    vm_compute. intros Hin.
    repeat (apply elem_of_cons in Hin as [Hin|Hin]; [discriminate Hin|]).
    inversion Hin.
  - destruct (C7_stops_at_the_shorter testParseDate
                (joinTabs ["5"; "subject"; "sender"])
                [OverHeaderSubject; OverHeaderFrm; OverHeaderBytes])
      as (_ & _ & _ & _ & H & _).
    exact (H "5" ["subject"; "sender"] eq_refl).
  - destruct (C7_stops_at_the_shorter testParseDate
                (joinTabs ["5"; "subject"; "sender"])
                [OverHeaderSubject; OverHeaderFrm; OverHeaderBytes])
      as (_ & _ & _ & _ & _ & H).
    apply (H _ 1 OverHeaderFrm "sender"); [reflexivity|reflexivity|reflexivity|].
    vm_compute. intros Hin. inversion Hin.
Defined.

Lemma C8_witness :
  exists r, parseArticleOverview testParseDate exampleLine exampleSchema = Ok r
    /\ Id r = 12345%Z /\ Subject r = "Hello World"
    /\ Bytes r = 1024%Z /\ Lines r = 20%Z
    /\ Date r = 63682138724%Z /\ Date r <> zeroTime.
Proof.
  apply (C8_example_record testParseDate 63682138724%Z); [reflexivity|discriminate].
Defined.

End OverviewFacts.

(** ** The client: negotiation and framing *)
Module ClientFacts.
Import Textproto Compressed Client Overview Session OverviewFacts.

Lemma Command_frame cmd code c :
  sent (conn (Command cmd code c).1) = sent (conn c) ++ [cmd]
  /\ overViewFormat (Command cmd code c).1 = overViewFormat c
  /\ compress (Command cmd code c).1 = compress c.
Proof.
  unfold Command, st_bind, onConn, PrintfLine, ReadCodeLine, st_bind, ReadLine,
    st_lift, setConn. cbn.
  destruct (writes (conn c)) as [|[e|] ws]; cbn; auto;
    destruct (lines (conn c)) as [|[l|e] ls]; cbn; auto;
    destruct (parseCodeLine l code) as [[[? ?] ?]| |]; cbn; auto.
Qed.

Lemma ReadDotLines_frame c :
  sent (conn (onConn ReadDotLines c).1) = sent (conn c)
  /\ overViewFormat (onConn ReadDotLines c).1 = overViewFormat c.
Proof.
  unfold onConn, ReadDotLines, setConn.
  destruct (dotLines (lines (conn c)) []) as [ls' r]. cbn. auto.
Qed.



(** *** The uncompressed path *)

Lemma cutDot_unstuff line :
  line <> String DOT EmptyString -> cutDot line = Some (unstuff line).
Proof.
  intros Hne. destruct line as [|c rest]; [reflexivity|]. cbn [cutDot unstuff].
  destruct (decide (c = DOT)) as [->|]; [|reflexivity].
  destruct (decide (String.length (String DOT rest) = 1)) as [E|]; [|reflexivity].
  destruct rest; [contradiction|discriminate E].
Qed.

Lemma cutDot_terminator : cutDot (String DOT EmptyString) = None.
Proof. reflexivity. Qed.

(** The lines before the terminator are handed over in order, each
    unstuffed, and the loop goes on with what follows them. *)
Lemma plainLines_recorder ls : forall tail v,
  Forall (fun l => l <> String DOT EmptyString) ls ->
  plainLines recorder (map Data ls ++ tail) v
  = plainLines recorder tail (v ++ map unstuff ls).
Proof.
  induction ls as [|l ls IH]; intros tail v Hall.
  - cbn [map app]. rewrite app_nil_r. reflexivity.
  - apply Forall_cons in Hall as [Hl Hall]. cbn [map app plainLines].
    rewrite (cutDot_unstuff l Hl). cbn [recorder].
    rewrite (IH _ _ Hall), <- app_assoc. reflexivity.
Qed.

(** Without a terminator line the uncompressed branch of [readDotLines]
    never ends with a nil error. *)
Lemma plainLines_needs_terminator {St} (f : St -> string -> St * res unit) ls :
  forall s,
  Forall (fun x => x <> Data (String DOT EmptyString)) ls ->
  (plainLines f ls s).2 <> Ok tt.
Proof.
  induction ls as [|[line|e] ls IH]; intros s Hall; [discriminate| |discriminate].
  apply Forall_cons in Hall as [Hl Hall]. cbn [plainLines].
  rewrite cutDot_unstuff by congruence.
  destruct (f s (unstuff line)) as [s' [[]| |]]; [|discriminate..].
  apply IH, Hall.
Qed.

(** When the stream ends before a terminator line and the callback accepts
    every line, the uncompressed branch of [readDotLines] reports
    [io.ErrUnexpectedEOF]. *)
Lemma plainLines_unexpected_eof {St} (f : St -> string -> St * res unit) ls :
  forall s,
  (forall s l, (f s l).2 = Ok tt) ->
  Forall (fun l => l <> String DOT EmptyString) ls ->
  (plainLines f (map Data ls) s).2 = Err ErrUnexpectedEOF.
Proof.
  induction ls as [|line ls IH]; intros s Hf Hall; [reflexivity|].
  apply Forall_cons in Hall as [Hl Hall]. cbn [map plainLines].
  rewrite (cutDot_unstuff line Hl). pose proof (Hf s (unstuff line)) as Hr.
  destruct (f s (unstuff line)) as [s' r]. cbn [snd] in Hr. subst r.
  apply IH; assumption.
Qed.

(** *** The compressed path *)

Lemma append_assoc (a b c : string) : (a +:+ b) +:+ c = a +:+ (b +:+ c).
Proof.
  induction a as [|x a IH]; [reflexivity|].
  change (String x ((a +:+ b) +:+ c) = String x (a +:+ (b +:+ c))).
  rewrite IH. reflexivity.
Qed.

Lemma cutAt_linesFrom text : forall cur,
  linesFrom cur text
  = match cutAt LF text with
    | Some (l, rest) => (cur +:+ l) :: linesFrom EmptyString rest
    | None => []
    end.
Proof.
  induction text as [|c t IH]; intros cur; cbn [linesFrom cutAt]; [reflexivity|].
  destruct (decide (c = LF)); [reflexivity|].
  rewrite IH. destruct (cutAt LF t) as [[l rest]|]; [|reflexivity].
  rewrite append_assoc. reflexivity.
Qed.

Lemma cutAt_shorter delim text l rest :
  cutAt delim text = Some (l, rest) -> String.length rest < String.length text.
Proof.
  revert l rest. induction text as [|c p IH]; intros l rest E; [discriminate|].
  cbn [cutAt] in E. destruct (decide (c = delim)).
  - injection E as <- <-. cbn [String.length]. lia.
  - destruct (cutAt delim p) as [[l' r']|]; [|discriminate].
    injection E as <- <-. specialize (IH _ _ eq_refl). cbn [String.length]. lia.
Qed.

(** The compressed branch hands over every complete line of the
    decompressed text, in order, each through [strings.TrimSpace]; it ends
    with nil when the text ends with [io.EOF], and with the error
    otherwise. *)
Lemma compressedLines_recorder n : forall reader v,
  String.length (pending reader) <= n ->
  compressedLines recorder reader v
  = (v ++ map TrimSpace (completeLines (pending reader)),
     match final reader with EOF => Ok tt | e => Err e end).
Proof.
  induction n as [|n IH]; intros reader v Hn; rewrite compressedLines_equation_1;
  generalize (Logic.inspect (ReadString reader LF));
  intros [[r' [line oe]] Heq]; pose proof Heq as Heq'; unfold ReadString in Heq';
  unfold completeLines; rewrite cutAt_linesFrom;
  destruct (cutAt LF (pending reader)) as [[l rest]|] eqn:E;
  injection Heq' as <- <- <-.
  all: try (apply cutAt_shorter in E).
  all: try (destruct (final reader); cbn; rewrite app_nil_r; reflexivity).
  - lia.
  - cbn [compressedLines_unfold_clause_1 recorder].
    rewrite IH by (cbn [pending]; lia).
    cbn [pending final map]. rewrite <- app_assoc. reflexivity.
Qed.

(** Trailing white space never reaches two markers at the other end. *)
Lemma trimLeading_flip_keeps_markers n : forall t,
  length t <= n ->
  exists t', trimLeading true (t ++ [DOT; DOT]) = t' ++ [DOT; DOT].
Proof.
  induction n as [|n IH]; intros t Hn.
  - destruct t; [|simpl in Hn; lia]. exists []. reflexivity.
  - destruct t as [|a t1]; [exists []; reflexivity|].
    cbn [app trimLeading]. destruct (asciiSpace a).
    { apply IH. simpl in Hn. lia. }
    destruct t1 as [|b t2].
    { exists [a]. cbn [app]. destruct (isSpace2 DOT a) eqn:E; [discriminate E|].
      destruct (isSpace3 DOT DOT a) eqn:E3; [discriminate E3|]. reflexivity. }
    cbn [app]. destruct (isSpace2 b a).
    { apply IH. simpl in Hn. lia. }
    destruct t2 as [|c t3].
    { exists [a; b]. cbn [app].
      destruct (isSpace3 DOT b a) eqn:E3; [discriminate E3|]. reflexivity. }
    cbn [app]. destruct (isSpace3 c b a).
    { apply IH. simpl in Hn. lia. }
    exists (a :: b :: c :: t3). reflexivity.
Qed.

(** [strings.TrimSpace] strips no leading marker. *)
Lemma TrimSpace_keeps_markers s :
  exists s', TrimSpace (String DOT (String DOT s)) = String DOT (String DOT s').
Proof.
  unfold TrimSpace. cbn [list_ascii_of_string].
  assert (trimLeading false (DOT :: DOT :: list_ascii_of_string s)
          = DOT :: DOT :: list_ascii_of_string s) as ->.
  { cbn [trimLeading]. destruct (list_ascii_of_string s); reflexivity. }
  cbn [rev]. rewrite <- app_assoc. cbn [app].
  destruct (trimLeading_flip_keeps_markers _ (rev (list_ascii_of_string s)) (le_n _))
    as [t' ->].
  rewrite rev_app_distr. cbn [rev app string_of_list_ascii]. eauto.
Qed.

Lemma isSpace2_high a b : isSpace2 a b = true -> (128 <= codeOf b)%Z.
Proof.
  unfold isSpace2. rewrite andb_true_iff, orb_true_iff, !Z.eqb_eq. lia.
Qed.

Lemma isSpace3_high a b c :
  isSpace3 a b c = true -> (128 <= codeOf b)%Z /\ (128 <= codeOf c)%Z.
Proof.
  unfold isSpace3.
  rewrite !orb_true_iff, !andb_true_iff, !orb_true_iff, !andb_true_iff,
    !Z.eqb_eq, !Z.leb_le. lia.
Qed.

(** What [trimLeading] returns is a suffix of its argument. *)
Lemma trimLeading_suffix flip n : forall s,
  length s <= n -> exists p, s = p ++ trimLeading flip s.
Proof.
  induction n as [|n IH]; intros s Hn.
  - destruct s; [|simpl in Hn; lia]. exists []. reflexivity.
  - destruct s as [|c1 s1]; [exists []; reflexivity|]. cbn [trimLeading].
    simpl in Hn. destruct (asciiSpace c1).
    { destruct (IH s1) as [p Hp]; [lia|]. exists (c1 :: p). cbn [app]. congruence. }
    destruct s1 as [|c2 s2]; [exists []; reflexivity|]. simpl in Hn.
    destruct (if flip then isSpace2 c2 c1 else isSpace2 c1 c2).
    { destruct (IH s2) as [p Hp]; [lia|]. exists (c1 :: c2 :: p). cbn [app]. congruence. }
    destruct s2 as [|c3 s3]; [exists []; reflexivity|]. simpl in Hn.
    destruct (if flip then isSpace3 c3 c2 c1 else isSpace3 c1 c2 c3).
    { destruct (IH s3) as [p Hp]; [lia|]. exists (c1 :: c2 :: c3 :: p). cbn [app]. congruence. }
    exists []. reflexivity.
Qed.

Lemma trimLeading_length flip s : length (trimLeading flip s) <= length s.
Proof.
  destruct (trimLeading_suffix flip _ s (le_n _)) as [p Hp].
  apply (f_equal length) in Hp. rewrite length_app in Hp. lia.
Qed.

Lemma trimLeading_fixed flip s :
  length (trimLeading flip s) = length s -> trimLeading flip s = s.
Proof.
  intros H. destruct (trimLeading_suffix flip _ s (le_n _)) as [p Hp].
  pose proof (f_equal length Hp) as Hl. rewrite length_app in Hl.
  destruct p; [simpl in Hp; congruence|simpl in Hl; lia].
Qed.

(** A line ending does not complete a rune begun by the bytes before it. *)
Lemma trimLeading_before_eol s eol :
  s <> [] -> trimLeading false s = s ->
  eol = [CR; LF] \/ eol = [LF] ->
  trimLeading false (s ++ eol) = s ++ eol.
Proof.
  intros Hne Hfix Heol.
  assert (Hlow : forall c, c ∈ eol -> (codeOf c < 128)%Z).
  { intros c Hc. destruct Heol as [-> | ->];
      repeat (apply elem_of_cons in Hc as [->|Hc]; [vm_compute; reflexivity|]);
      inversion Hc. }
  destruct s as [|c1 s1]; [contradiction|]. cbn [app trimLeading] in *.
  destruct (asciiSpace c1) eqn:E1.
  { pose proof (trimLeading_length false s1) as Hl. rewrite Hfix in Hl.
    simpl in Hl. lia. }
  destruct s1 as [|c2 s2].
  { cbn [app]. destruct eol as [|e1 eol']; [reflexivity|].
    destruct (isSpace2 c1 e1) eqn:E2.
    { apply isSpace2_high in E2. specialize (Hlow e1 ltac:(left)). lia. }
    destruct eol' as [|e2 eol'']; [reflexivity|].
    destruct (isSpace3 c1 e1 e2) eqn:E3; [|reflexivity].
    apply isSpace3_high in E3. specialize (Hlow e1 ltac:(left)). lia. }
  cbn [app]. destruct (isSpace2 c1 c2) eqn:E2.
  { pose proof (trimLeading_length false s2) as Hl. rewrite Hfix in Hl.
    simpl in Hl. lia. }
  destruct s2 as [|c3 s3].
  { cbn [app]. destruct eol as [|e1 eol']; [reflexivity|].
    destruct (isSpace3 c1 c2 e1) eqn:E3; [|reflexivity].
    apply isSpace3_high in E3. specialize (Hlow e1 ltac:(left)). lia. }
  cbn [app]. destruct (isSpace3 c1 c2 c3) eqn:E3; [|reflexivity].
  pose proof (trimLeading_length false s3) as Hl. rewrite Hfix in Hl.
  simpl in Hl. lia.
Qed.

Lemma list_ascii_of_string_app a b :
  list_ascii_of_string (a +:+ b) = list_ascii_of_string a ++ list_ascii_of_string b.
Proof.
  induction a as [|x a IH]; [reflexivity|].
  change (x :: list_ascii_of_string (a +:+ b)
          = x :: (list_ascii_of_string a ++ list_ascii_of_string b)).
  rewrite IH. reflexivity.
Qed.

(** A line that [strings.TrimSpace] leaves alone is handed over without its
    line ending and otherwise as it is. *)
Lemma TrimSpace_line body eol :
  TrimSpace body = body ->
  eol = String CR (String LF EmptyString) \/ eol = String LF EmptyString ->
  TrimSpace (body +:+ eol) = body.
Proof.
  intros Hfix Heol. unfold TrimSpace in *.
  remember (list_ascii_of_string body) as L eqn:HeqL.
  assert (HL : body = string_of_list_ascii L)
    by (subst L; rewrite string_of_list_ascii_of_string; reflexivity).
  apply (f_equal list_ascii_of_string) in Hfix.
  rewrite list_ascii_of_string_of_list_ascii, <- HeqL in Hfix.
  assert (H1 : trimLeading false L = L /\ trimLeading true (rev L) = rev L).
  { pose proof (trimLeading_length false L) as Ha.
    pose proof (trimLeading_length true (rev (trimLeading false L))) as Hb.
    pose proof (f_equal length Hfix) as Hc.
    rewrite !length_rev in *.
    assert (E : trimLeading false L = L) by (apply trimLeading_fixed; lia).
    split; [exact E|]. rewrite E in *. apply trimLeading_fixed.
    rewrite length_rev in *. lia. }
  destruct H1 as [Hl Hr].
  rewrite list_ascii_of_string_app, <- HeqL.
  set (E := list_ascii_of_string eol).
  assert (HE : E = [CR; LF] \/ E = [LF])
    by (subst E; destruct Heol as [-> | ->]; auto).
  assert (Htrail : trimLeading true (rev E ++ rev L) = rev L).
  { destruct HE as [-> | ->]; cbn [rev app trimLeading];
      (replace (asciiSpace LF) with true by reflexivity);
      (replace (asciiSpace CR) with true by reflexivity); exact Hr. }
  destruct (decide (L = [])) as [HnilL|HneL].
  - rewrite HnilL in *. cbn [app].
    assert (trimLeading false E = []) as ->
      by (destruct HE as [-> | ->]; reflexivity).
    rewrite HL. reflexivity.
  - rewrite (trimLeading_before_eol L E HneL Hl HE), rev_app_distr, Htrail,
      rev_involutive. symmetry. exact HL.
Qed.
(** *** The schema announcement *)

Lemma overviewFmtCase_app res line :
  overviewFmtCase res line = res ++ overviewFmtCase [] line.
Proof.
  unfold overviewFmtCase. repeat case_decide; rewrite ?app_nil_r; reflexivity.
Qed.

(** The schema lists the tags of the recognised lines in the order of the
    lines; a line without a tag adds nothing. *)
Lemma overviewFmt_in_order lines : forall res,
  fold_left overviewFmtCase lines res
  = res ++ concat (map (overviewFmtCase []) lines).
Proof.
  induction lines as [|l lines IH]; intros res; cbn [fold_left map concat].
  - rewrite app_nil_r. reflexivity.
  - rewrite IH, (overviewFmtCase_app res l), <- app_assoc. reflexivity.
Qed.

(** C4: in an announcement that lists [":bytes"] and [":lines"], as servers
    do after RFC 3977, these two lines get no tag: the schema that
    [overviewFmt] returns has neither the bytes nor the lines tag, while
    ["Bytes"] and ["Lines"] do get theirs.  The [case ":bytes":] and
    [case ":lines":] of the [switch] have empty bodies, and a Go [case] does
    not fall through to the next one. *)
Theorem C4_colon_bytes_and_lines_get_no_tag :
  (overviewFmt
     (mkPlainClient []
        [Data "215 Order of fields in overview database.";
         Data "Subject:"; Data ":bytes"; Data ":lines"; Data "Xref:full";
         Data "."])).2
  = Ok [OverHeaderSubject; OverHeaderXRefFull]
  /\ fold_left overviewFmtCase [":bytes"; "Bytes"; ":lines"; "Lines"] []
     = [OverHeaderBytes; OverHeaderLines].
Proof. split; vm_compute; reflexivity. Qed.

Section WithCollaborators.
Variable parseDate : string -> res Time.
Variable zlibNewReader : list byte -> res bufReader.
Variable yencDecode : st (list (rd (list byte))) (list byte).



(** Lines that parse are appended in order and the loop goes on. *)
Lemma overLines_parsed format pre : forall arts tail v,
  Forall2 (fun w a => exists l, cutDot w = Some l
                      /\ parseArticleOverview parseDate l format = Ok a) pre arts ->
  overLines parseDate format (map Data pre ++ tail) v
  = overLines parseDate format tail (v ++ arts).
Proof.
  induction pre as [|w pre IH]; intros arts tail v H.
  - apply Forall2_nil_inv_l in H as ->. rewrite app_nil_r. reflexivity.
  - apply Forall2_cons_inv_l in H as (a & arts' & (l & Hcut & Hparse) & H & ->).
    cbn [map app overLines]. rewrite Hcut, Hparse, (IH _ _ _ H), <- app_assoc.
    reflexivity.
Qed.

(** When the stream ends after lines that parse, the loop of [Over] ends
    with the records and a nil error, terminator line or not. *)
Lemma overLines_end_of_stream format pre arts v :
  Forall2 (fun w a => exists l, cutDot w = Some l
                      /\ parseArticleOverview parseDate l format = Ok a) pre arts ->
  overLines parseDate format (map Data pre) v = ([], Ok (v ++ arts)).
Proof.
  intros H. rewrite <- (app_nil_r (map Data pre)), (overLines_parsed _ _ _ _ _ H).
  reflexivity.
Qed.

(** C6: a line whose first tab-delimited field is not an unsigned integer
    makes [parseArticleOverview] return the error of [strconv.ParseUint] and
    no record; and when [Over] meets such a line after lines that parse, it
    returns that error and leaves the client with the schema that was in
    force for the parse, be it the cached one or the one just negotiated. *)
Theorem C6_malformed_identifier line format item0 e :
  Split line TAB !! 0 = Some item0 ->
  ParseUint item0 64 = Err e ->
  parseArticleOverview parseDate line format = Err e
  /\ forall c start end_ c0 c1 x pre arts wire rest,
       ensureOverViewFormat c = (c0, Ok tt) ->
       overViewFormat c0 = format ->
       Command ("OVER " +:+ formatInt start +:+ "-" +:+ formatInt end_) 224 c0
         = (c1, Ok x) ->
       lines (conn c1) = map Data pre ++ Data wire :: rest ->
       Forall2 (fun w a => exists l, cutDot w = Some l
                  /\ parseArticleOverview parseDate l format = Ok a) pre arts ->
       cutDot wire = Some line ->
       exists c', Over parseDate start end_ c = (c', Err e)
                  /\ overViewFormat c' = format
                  /\ lines (conn c') = rest.
Proof.
  intros Hitem Hid.
  assert (Hparse : parseArticleOverview parseDate line format = Err e).
  { unfold parseArticleOverview, index. rewrite Hitem. cbn [res_bind].
    rewrite Hid. reflexivity. }
  split; [exact Hparse|].
  intros c start end_ c0 c1 x pre arts wire rest Hens Hfmt Hcmd Hlines Hpre Hcut.
  unfold Over, st_bind. rewrite Hens, Hcmd.
  pose proof (Command_frame
    ("OVER " +:+ formatInt start +:+ "-" +:+ formatInt end_) 224 c0) as (_ & Hf & _).
  rewrite Hcmd in Hf. cbn [fst] in Hf. rewrite Hf, Hfmt, Hlines.
  rewrite (overLines_parsed _ _ _ _ _ Hpre). cbn [overLines].
  rewrite Hcut, Hparse. eexists. split; [reflexivity|]. cbn. split; congruence.
Qed.

(** C5, as the code has it.  On the uncompressed path a line other than the
    terminator is handed to the caller, and by [Over] to the parser, with
    one leading marker stripped if it begins with one: a line that begins
    with two markers arrives with exactly one stripped.  On the compressed
    path every complete line of the decompressed text is handed over as
    [strings.TrimSpace] returns it: no leading marker is stripped, the line
    ending and any other leading or trailing white space is, so that a line
    without white space at its ends arrives unmodified. *)
Theorem C5_lines_handed_to_the_caller c v :
  (compress c = false -> forall ls rest,
     lines (conn c) = map Data ls ++ Data (String DOT EmptyString) :: rest ->
     Forall (fun l => l <> String DOT EmptyString) ls ->
     exists c',
       readDotLines zlibNewReader recorder (c, v)
       = ((c', v ++ map unstuff ls), Ok tt)
       /\ lines (conn c') = rest)
  /\ (forall format ls arts tail w,
        Forall (fun l => l <> String DOT EmptyString) ls ->
        Forall2 (fun l a =>
          parseArticleOverview parseDate (unstuff l) format = Ok a) ls arts ->
        overLines parseDate format (map Data ls ++ tail) w
        = overLines parseDate format tail (w ++ arts))
  /\ (forall r, unstuff (String DOT (String DOT r)) = String DOT r)
  /\ (compress c = true -> forall k reader,
        getCompressedReader zlibNewReader (conn c) = (k, Ok reader) ->
        readDotLines zlibNewReader recorder (c, v)
        = ((setConn c k, v ++ map TrimSpace (completeLines (pending reader))),
           match final reader with EOF => Ok tt | e => Err e end))
  /\ (forall s, exists s',
        TrimSpace (String DOT (String DOT s)) = String DOT (String DOT s'))
  /\ (forall body eol,
        TrimSpace body = body ->
        eol = String CR (String LF EmptyString) \/ eol = String LF EmptyString ->
        TrimSpace (body +:+ eol) = body).
Proof.
  repeat apply conj.
  - intros Hc ls rest Hlines Hall. unfold readDotLines. rewrite Hc, Hlines.
    rewrite (plainLines_recorder ls _ _ Hall). cbn [plainLines].
    rewrite cutDot_terminator. eexists. split; reflexivity.
  - intros format ls arts tail w Hall Hparse. apply overLines_parsed.
    clear tail w. induction Hparse as [|l a ls arts Hl _ IH]; [constructor|].
    apply Forall_cons in Hall as [Hne Hall].
    constructor; [|exact (IH Hall)].
    exists (unstuff l). split; [apply cutDot_unstuff, Hne|exact Hl].
  - intros r. cbn [unstuff]. destruct (decide (DOT = DOT)); [reflexivity|contradiction].
  - intros Hc k reader Hreader. unfold readDotLines. rewrite Hc, Hreader.
    rewrite (compressedLines_recorder _ reader v (le_n _)). reflexivity.
  - apply TrimSpace_keeps_markers.
  - apply TrimSpace_line.
Qed.


End WithCollaborators.

(** C3: a response to [OVER] that breaks off after one record, without the
    terminator line.  [Over] sets [err = io.ErrUnexpectedEOF], leaves its
    loop and ends in [return v, nil]: the caller gets the record and a nil
    error, as after a terminator line.  [XOver], through [readDotLines],
    reports [io.ErrUnexpectedEOF] on the same connection. *)
Theorem C3_Over_returns_nil_at_end_of_stream :
  let c := mkPlainClient [OverHeaderSubject]
             [Data "224 Overview information follows";
              Data (joinTabs ["1"; "x"])] in
  (Over testParseDate 1 1 c).2
  = Ok [{| Id := 1; Subject := "x"; From_ := EmptyString; Date := zeroTime;
           MessageId := EmptyString; References := EmptyString; Bytes := 0;
           Lines := 0; XRef := EmptyString |}]
  /\ (XOver testParseDate noZlib 1 1 c).2 = Err ErrUnexpectedEOF.
Proof. split; vm_compute; reflexivity. Qed.

(** C5 as the specification states it fails on the compressed path: the
    line [" x"] of the decompressed text reaches the caller as ["x"]. *)
Lemma C5_compressed_line_is_trimmed :
  let text := " x" +:+ CRLF in
  let c := mkCompressedClient [] [Data [x78; x9c; x2e; x0d; x0a]] in
  (readDotLines (zlibOf text) recorder (c, [])).1.2 = ["x"]
  /\ map chomp (completeLines text) = [" x"]
  /\ (readDotLines (zlibOf text) recorder (c, [])).1.2
     <> map chomp (completeLines text).
Proof. repeat split; try (vm_compute; reflexivity). vm_compute. discriminate. Qed.

Lemma C5_witness :
  (let c := mkPlainClient [] [Data "..a"; Data "b"; Data "."; Data "c"] in
   exists c', readDotLines noZlib recorder (c, [])
              = ((c', [] ++ map unstuff ["..a"; "b"]), Ok tt)
              /\ lines (conn c') = [Data "c"])
  /\ (let c := mkCompressedClient [] [Data [x78; x9c; x2e; x0d; x0a]] in
      exists k, readDotLines (zlibOf ("..a" +:+ CRLF)) recorder (c, [])
                = ((setConn c k, [] ++ map TrimSpace (completeLines ("..a" +:+ CRLF))),
                   Ok tt)).
Proof.
  split; cbv zeta.
  - destruct (C5_lines_handed_to_the_caller testParseDate noZlib
                (mkPlainClient [] [Data "..a"; Data "b"; Data "."; Data "c"]) [])
      as (H & _).
    apply H; [reflexivity|reflexivity|].
    repeat constructor; discriminate.
  - destruct (C5_lines_handed_to_the_caller testParseDate
                (zlibOf ("..a" +:+ CRLF))
                (mkCompressedClient [] [Data [x78; x9c; x2e; x0d; x0a]]) [])
      as (_ & _ & _ & H & _).
    eexists.
    exact (H eq_refl _ {| pending := "..a" +:+ CRLF; final := EOF |} eq_refl).
Defined.

Lemma C6_witness :
  let line := joinTabs ["x"; "foo"] in
  let e := NumError "ParseUint" "x" ErrSyntax in
  let c := mkPlainClient []
             [Data "215 Order of fields"; Data "Subject:"; Data ".";
              Data "224 Overview information follows";
              Data (joinTabs ["7"; "ok"]); Data line; Data "."] in
  parseArticleOverview testParseDate line [OverHeaderSubject] = Err e
  /\ exists c', Over testParseDate 1 9 c = (c', Err e)
                /\ overViewFormat c' = [OverHeaderSubject]
                /\ lines (conn c') = [Data "."].
Proof.
  cbv zeta.
  destruct (C6_malformed_identifier testParseDate (joinTabs ["x"; "foo"])
              [OverHeaderSubject] "x" (NumError "ParseUint" "x" ErrSyntax)
              eq_refl eq_refl) as [H1 H2].
  split; [exact H1|].
  eapply (H2 (mkPlainClient []
                [Data "215 Order of fields"; Data "Subject:"; Data ".";
                 Data "224 Overview information follows";
                 Data (joinTabs ["7"; "ok"]); Data (joinTabs ["x"; "foo"]);
                 Data "."])
             1%Z 9%Z _ _ _ [joinTabs ["7"; "ok"]]
             [{| Id := 7; Subject := "ok"; From_ := EmptyString;
                 Date := zeroTime; MessageId := EmptyString;
                 References := EmptyString; Bytes := 0; Lines := 0;
                 XRef := EmptyString |}]
             (joinTabs ["x"; "foo"]) [Data "."]).
  - reflexivity.
  - reflexivity.
  - reflexivity.
  - reflexivity.
  - constructor; [|constructor].
    exists (joinTabs ["7"; "ok"]). split; vm_compute; reflexivity.
  - reflexivity.
Defined.


End ClientFacts.

(** * Further properties of the code *)

(** ** ringbuffer.go *)
Module ScannerMore.
Import RingBuffer Scanner RingBufferFacts.

(** Writes never panic on a reachable state, keep it reachable, and count
    the bytes they were given up to the capacity. *)
Lemma writeAll_spec ws : forall b,
  wf b ->
  exists b', writeAll b ws = Ok b' /\ wf b' /\ Capacity b' = Capacity b
             /\ used b' = Nat.min (Capacity b) (used b + length (concat ws)).
Proof.
  induction ws as [|w ws IH]; intros b Hwf.
  - exists b. pose proof Hwf as (? & ? & ?). cbn.
    split; [reflexivity|]. split; [exact Hwf|]. split; lia.
  - cbn [writeAll concat]. pose proof (Write_spec b w Hwf) as HW. cbv zeta in HW.
    rewrite HW. cbn [res_bind].
    edestruct IH as (b' & Hb' & Hwf' & Hcap & Hused);
      [eapply Write_wf; [exact Hwf|exact HW]|].
    exists b'. rewrite Hb'. cbn [Capacity used] in *.
    split; [reflexivity|]. split; [exact Hwf'|]. split; [exact Hcap|].
    rewrite Hused, length_app. lia.
Qed.

Lemma writeAll_app ws1 ws2 b :
  writeAll b (ws1 ++ ws2) = (do b1 <- writeAll b ws1; writeAll b1 ws2).
Proof.
  revert b. induction ws1 as [|w ws1 IH]; intros b; cbn [app writeAll res_bind];
    [reflexivity|].
  destruct (Write b w); cbn [res_bind]; auto.
Qed.

(** X1: whatever is written into a scanner made by [newRingBuffer], no write
    panics; the capacity and the length of the buffer stay as they were
    made, [used] is the number of bytes written, capped at the capacity, and
    [Equals] gives an answer without a panic. *)
Theorem X1_writes_keep_the_scanner_sound cap ws t :
  exists b,
    writeAll (newRingBuffer cap) ws = Ok b
    /\ Capacity b = cap /\ length (Buffer b) = cap /\ position b = 0
    /\ used b = Nat.min cap (length (concat ws))
    /\ exists m, Equals b t = Ok m.
Proof.
  destruct (writeAll_spec ws (newRingBuffer cap) (wf_new cap))
    as (b & Hb & Hwf & Hcap & Hused).
  exists b. cbn [Capacity used newRingBuffer] in *.
  pose proof Hwf as (Hlen & Hpos & _).
  split; [exact Hb|]. split; [exact Hcap|]. split; [congruence|].
  split; [exact Hpos|]. split; [rewrite Hused; reflexivity|].
  rewrite Equals_spec by exact Hwf. eauto.
Qed.

(** X2: a scanner that has been given fewer bytes than the terminator has
    reports no match. *)
Theorem X2_no_match_before_enough_bytes t ws :
  length (concat ws) < length t -> scan t ws = Ok false.
Proof.
  intros Hlt. unfold scan.
  destruct (writeAll_spec ws (newRingBuffer (length t)) (wf_new _))
    as (b & -> & _ & _ & Hused).
  cbn [res_bind used Capacity newRingBuffer] in *. unfold Equals.
  destruct (decide (length t <> used b)); [reflexivity|lia].
Qed.

Lemma X2_witness : scan [x2e; x0d; x0a] [[x2e]; [x0d]] = Ok false.
Proof. apply X2_no_match_before_enough_bytes. simpl. lia. Defined.

(** X3: a write of at least as many bytes as the terminator has decides the
    answer alone: after it, whatever was written before, the scanner reports
    a match exactly when the written bytes end in the terminator. *)
Theorem X3_long_write_decides t ws buf :
  length t <= length buf ->
  scan t (ws ++ [buf])
  = Ok (bool_decide (drop (length buf - length t) buf = t)).
Proof.
  intros Hlen. unfold scan. rewrite writeAll_app.
  destruct (writeAll_spec ws (newRingBuffer (length t)) (wf_new _))
    as (b & -> & Hwf & Hcap & _).
  cbn [res_bind writeAll Capacity newRingBuffer] in *.
  pose proof (Write_spec b buf Hwf) as HW. cbv zeta in HW.
  rewrite HW. cbn [res_bind].
  rewrite Equals_spec by (eapply Write_wf; eassumption).
  cbn [used Buffer]. f_equal. pose proof Hwf as (HB & _ & _).
  rewrite Hcap in *. replace (Nat.min (length t) (length buf)) with (length t) by lia.
  replace (Nat.min (length t) (used b + length t)) with (length t) by lia.
  rewrite (drop_ge (Buffer b)), app_nil_r by lia.
  rewrite take_ge by (rewrite length_drop; lia).
  apply bool_decide_ext. split; intros E; symmetry; exact E.
Qed.

Lemma X3_witness :
  scan [x2e; x0d; x0a] ([[x61]; [x2e; x0d]] ++ [[x62; x2e; x0d; x0a]])
  = Ok (bool_decide
          (drop (length [x62; x2e; x0d; x0a] - length [x2e; x0d; x0a])
             [x62; x2e; x0d; x0a] = [x2e; x0d; x0a])).
Proof. apply X3_long_write_decides. simpl. lia. Defined.

End ScannerMore.

(** ** compressed.go *)
Module EnvelopeMore.
Import RingBuffer Scanner RingBufferFacts Compressed CompressedFacts.
Import Session ClientFacts.

(** Chunks of three bytes or more that do not end in the terminator are
    copied to the stream and the loop goes on. *)
Lemma readLoop_long_prefix cs : forall rb istream tail,
  wf rb -> Capacity rb = 3 ->
  Forall (fun c => 3 <= length c /\ drop (length c - 3) c <> term) cs ->
  exists rb', wf rb' /\ Capacity rb' = 3 /\
    readLoop (map Data cs ++ tail) rb istream
    = readLoop tail rb' (istream ++ concat cs).
Proof.
  induction cs as [|c cs IH]; intros rb istream tail Hwf Hcap Hall.
  - exists rb. cbn [map app concat]. rewrite app_nil_r. auto.
  - apply Forall_cons in Hall as [[Hlen Hne] Hall].
    cbn [map app readLoop concat].
    destruct (step_long_chunk rb c Hwf Hcap Hlen) as (rb1 & Hwf1 & Hcap1 & ->).
    rewrite bool_decide_eq_false_2 by exact Hne.
    destruct (IH rb1 (istream ++ c) tail Hwf1 Hcap1 Hall) as (rb' & ? & ? & ->).
    exists rb'. rewrite <- app_assoc. auto.
Qed.

(** X4: when every chunk has three bytes or more and the first chunk that
    ends in [".\r\n"] is [pre ++ ".\r\n"], [readCompressed] returns nil, has
    appended to the stream exactly the bytes before the terminator, and has
    read nothing after that chunk. *)
Theorem X4_terminator_at_the_end_of_a_chunk cs pre rest istream :
  Forall (fun c => 3 <= length c /\ drop (length c - 3) c <> term) cs ->
  readCompressed (map Data cs ++ Data (pre ++ term) :: rest) istream
  = (rest, istream ++ concat cs ++ pre, Ok tt).
Proof.
  intros Hall. unfold readCompressed.
  apply readLoop_whole_terminator; [apply wf_new|reflexivity|exact Hall].
Qed.

Lemma X4_witness :
  readCompressed
    (map Data [[x78; x9c; x01]; [x02; x03; x04; x05]]
     ++ Data ([x06] ++ term) :: [Data [x32]]) []
  = ([Data [x32]],
     [] ++ concat [[x78; x9c; x01]; [x02; x03; x04; x05]] ++ [x06], Ok tt).
Proof.
  apply X4_terminator_at_the_end_of_a_chunk.
  repeat constructor; simpl; try lia; discriminate.
Defined.

(** X5: a read error before the terminator is returned as it is, with the
    bytes read so far in the stream and nothing read after it; a stream
    that ends without the terminator gives [io.EOF]. *)
Theorem X5_read_error_is_returned cs e rest istream :
  Forall (fun c => 3 <= length c /\ drop (length c - 3) c <> term) cs ->
  readCompressed (map Data cs ++ Fail e :: rest) istream
    = (rest, istream ++ concat cs, Err e)
  /\ readCompressed (map Data cs) istream
     = ([], istream ++ concat cs, Err EOF).
Proof.
  intros Hall. unfold readCompressed. split.
  - destruct (readLoop_long_prefix cs (newRingBuffer 3) istream
                (Fail e :: rest) (wf_new 3) eq_refl Hall) as (rb' & _ & _ & ->).
    reflexivity.
  - rewrite <- (app_nil_r (map Data cs)).
    destruct (readLoop_long_prefix cs (newRingBuffer 3) istream
                [] (wf_new 3) eq_refl Hall) as (rb' & _ & _ & ->).
    reflexivity.
Qed.

Lemma X5_witness :
  readCompressed (map Data [[x78; x9c; x01]] ++ Fail (OtherError "reset") :: []) []
    = ([], [] ++ concat [[x78; x9c; x01]], Err (OtherError "reset"))
  /\ readCompressed (map Data [[x78; x9c; x01]]) []
     = ([], [] ++ concat [[x78; x9c; x01]], Err EOF).
Proof.
  apply X5_read_error_is_returned.
  repeat constructor; simpl; try lia; discriminate.
Defined.

Section WithZlib.
Variable zlibNewReader : list byte -> res bufReader.

(** X6: when the terminator comes at the end of a chunk as in X4,
    [getCompressedReader] hands to the decompressor exactly the bytes that
    precede the terminator, returns what the decompressor returns, and
    leaves on the connection the chunks after the terminator; what was
    written and the lines to read are not touched. *)
Theorem X6_decompressor_gets_the_payload k cs pre rest :
  Forall (fun c => 3 <= length c /\ drop (length c - 3) c <> term) cs ->
  chunks k = map Data cs ++ Data (pre ++ term) :: rest ->
  getCompressedReader zlibNewReader k
  = ({| sent := sent k; writes := writes k; lines := lines k; chunks := rest |},
     zlibNewReader (concat cs ++ pre)).
Proof.
  intros Hall Hk. unfold getCompressedReader, readCompressed. rewrite Hk.
  rewrite (readLoop_whole_terminator cs _ _ _ _ (wf_new 3) eq_refl Hall).
  reflexivity.
Qed.

(** The loop of [readCompressedLines] collects every complete line, trimmed. *)
Lemma compressedLinesLoop_spec n : forall reader out,
  String.length (pending reader) <= n ->
  compressedLinesLoop reader out
  = match final reader with
    | EOF => Ok (out ++ map TrimSpace (completeLines (pending reader)))
    | e => Err e
    end.
Proof.
  induction n as [|n IH]; intros reader out Hn;
  rewrite compressedLinesLoop_equation_1;
  generalize (Logic.inspect (ReadString reader LF));
  intros [[r' [line oe]] Heq]; pose proof Heq as Heq'; unfold ReadString in Heq';
  unfold completeLines; rewrite cutAt_linesFrom;
  destruct (cutAt LF (pending reader)) as [[l rest]|] eqn:E;
  injection Heq' as <- <- <-.
  all: try (apply cutAt_shorter in E).
  all: try (destruct (final reader); cbn; rewrite ?app_nil_r; reflexivity).
  - lia.
  - cbn [compressedLinesLoop_unfold_clause_1].
    rewrite IH by (cbn [pending]; lia).
    cbn [pending final map]. rewrite <- app_assoc. reflexivity.
Qed.

(** X7: [readCompressedLines] returns the complete lines of the decompressed
    text in order, each as [strings.TrimSpace] returns it; text after the
    last line feed is dropped; an error of the decompressor, at the start or
    in the middle of the text, is returned instead of any line. *)
Theorem X7_readCompressedLines_result k cs pre rest :
  Forall (fun c => 3 <= length c /\ drop (length c - 3) c <> term) cs ->
  chunks k = map Data cs ++ Data (pre ++ term) :: rest ->
  (readCompressedLines zlibNewReader k).2
  = match zlibNewReader (concat cs ++ pre) with
    | Ok reader =>
        match final reader with
        | EOF => Ok (map TrimSpace (completeLines (pending reader)))
        | e => Err e
        end
    | Err e => Err e
    | Panic p => Panic p
    end.
Proof.
  intros Hall Hk. unfold readCompressedLines, st_bind, getCompressedReader,
    readCompressed, st_lift. rewrite Hk.
  rewrite (readLoop_whole_terminator cs _ _ _ _ (wf_new 3) eq_refl Hall).
  cbn [res_bind app]. destruct (zlibNewReader (concat cs ++ pre)) as [reader| |];
    cbn [snd]; try reflexivity.
  rewrite (compressedLinesLoop_spec _ reader [] (le_n _)). reflexivity.
Qed.

End WithZlib.

Lemma X6_witness :
  let k := {| sent := ["XOVER 1-2"]; writes := []; lines := [Data "x"];
              chunks := map Data [[x78; x9c; x01]]
                        ++ Data ([x06] ++ term) :: [Data [x32]] |} in
  getCompressedReader noZlib k
  = ({| sent := sent k; writes := writes k; lines := lines k;
        chunks := [Data [x32]] |},
     noZlib (concat [[x78; x9c; x01]] ++ [x06])).
Proof.
  cbv zeta. apply X6_decompressor_gets_the_payload; [|reflexivity].
  repeat constructor; simpl; try lia; discriminate.
Defined.

Lemma X7_witness :
  let text := "a " +:+ CRLF +:+ " b" +:+ CRLF +:+ "c" in
  let k := {| sent := []; writes := []; lines := [];
              chunks := map Data [[x78; x9c; x01]]
                        ++ Data ([x06] ++ term) :: [] |} in
  (readCompressedLines (zlibOf text) k).2
  = match zlibOf text (concat [[x78; x9c; x01]] ++ [x06]) with
    | Ok reader =>
        match final reader with
        | EOF => Ok (map TrimSpace (completeLines (pending reader)))
        | e => Err e
        end
    | Err e => Err e
    | Panic p => Panic p
    end.
Proof.
  cbv zeta.
  apply (X7_readCompressedLines_result _ _ [[x78; x9c; x01]] [x06] []);
    [|reflexivity].
  repeat constructor; simpl; try lia; discriminate.
Defined.

End EnvelopeMore.

(** ** client.go: the session *)
Module SessionMore.
Import Textproto Compressed Client Overview Session MoreNotions.
Import OverviewFacts ClientFacts.

Lemma isDigit_bounds c : isDigit c = true -> (48 <= codeOf c <= 57)%Z.
Proof. unfold isDigit. rewrite andb_true_iff, !Z.leb_le. tauto. Qed.

Lemma codeOf_inj a b : codeOf a = codeOf b -> a = b.
Proof.
  unfold codeOf. intros H. apply Nat2Z.inj in H.
  rewrite <- (ascii_nat_embedding a), <- (ascii_nat_embedding b), H. reflexivity.
Qed.

(** The only three bytes that [strconv.Atoi] reads as 200. *)
Lemma Atoi_200 a b c :
  Atoi (String a (String b (String c EmptyString))) = Ok 200%Z ->
  a = "2"%char /\ b = "0"%char /\ c = "0"%char.
Proof.
  unfold Atoi.
  destruct (decide (a = "-"%char)) as [->|Hm];
    [|destruct (decide (a = "+"%char)) as [->|Hp]];
    cbn [atoiDigits];
    repeat match goal with
    | |- context [isDigit ?x] =>
        let E := fresh "E" in
        destruct (isDigit x) eqn:E; [apply isDigit_bounds in E|]
    end; cbn [res_bind atoiDigits];
    try destruct (decide (_ = EmptyString)); try discriminate;
    intros [= H]; try lia.
  assert (codeOf a = codeOf "2"%char /\ codeOf b = codeOf "0"%char
          /\ codeOf c = codeOf "0"%char) as (Ha & Hb & Hc).
  { change (codeOf "2"%char) with 50%Z. change (codeOf "0"%char) with 48%Z. lia. }
  auto using codeOf_inj.
Qed.

Lemma substring_all s : substring 0 (String.length s) s = s.
Proof. induction s as [|c s IH]; [reflexivity|]. cbn. rewrite IH. reflexivity. Qed.

(** [ReadCodeLine(200)] accepts a line exactly when it is ["200 "] followed
    by the message. *)
Lemma parseCodeLine_200 line code msg :
  parseCodeLine line 200 = Ok (code, false, msg) <-> (code = 200%Z /\ line = "200 " +:+ msg).
Proof.
  split.
  - unfold parseCodeLine.
    destruct (decide (String.length line < 4 \/ _)) as [|Hn]; [discriminate|].
    destruct line as [|a [|b [|c [|d rest]]]];
      try (exfalso; apply Hn; left; cbn; lia).
    cbn [substring byteAt String.get String.length Nat.sub] in *.
    destruct (Atoi (String a (String b (String c EmptyString)))) as [n| |] eqn:EA;
      try discriminate.
    destruct (decide (n < 100)%Z); [discriminate|].
    destruct (decide _) as [|Hc]; [discriminate|].
    intros [= <- Hcont <-].
    assert (n = 200%Z) as -> by lia.
    apply Atoi_200 in EA as (-> & -> & ->).
    apply bool_decide_eq_false in Hcont.
    assert (d = " "%char) as ->.
    { destruct (decide (d = " "%char)) as [|Hd]; [assumption|].
      exfalso. apply Hn. right. split; congruence. }
    rewrite Nat.sub_0_r, substring_all. auto.
  - intros [-> ->].
    change ("200 " +:+ msg)
      with (String "2" (String "0" (String "0" (String " " msg)))).
    unfold parseCodeLine.
    destruct (decide (String.length _ < 4 \/ _)) as [[Hl|[Hs _]]|_].
    + cbn in Hl. lia.
    + exfalso. apply Hs. reflexivity.
    + cbn [substring byteAt String.get String.length Nat.sub].
      rewrite ?Nat.sub_0_r, substring_all. reflexivity.
Qed.

(** An operation on the connection changes nothing else of the client. *)
Lemma onConn_frame {A} (m : st Conn A) c :
  let c' := (onConn m c).1 in
  overViewFormat c' = overViewFormat c /\ capabilities c' = capabilities c
  /\ loadedCapabilities c' = loadedCapabilities c /\ Banner c' = Banner c
  /\ compress c' = compress c /\ conn c' = (m (conn c)).1.
Proof. unfold onConn. destruct (m (conn c)) as [k r]. cbn. auto 10. Qed.

Lemma issued_app c c' l :
  sent (conn c') = sent (conn c) ++ l -> issued c c' = l.
Proof. intros H. unfold issued. rewrite H. apply drop_app_length. Qed.

(** The check that decides [lacks]. *)
Lemma lacks_check ch s :
  forallb (fun c => negb (Ascii.eqb c ch)) (list_ascii_of_string s) = true ->
  lacks ch s.
Proof.
  induction s as [|c s IH]; intros H i; cbn in *; [discriminate|].
  apply andb_true_iff in H as [Hc Hs]. destruct i as [|i].
  - intros [= ->]. rewrite Ascii.eqb_refl in Hc. discriminate.
  - apply IH, Hs.
Qed.

(** X8: [Command] hands exactly its command line to the connection (a
    command without ['%'], since the command is the format of
    [PrintfLine]); when that write fails it returns the error of the write
    and reads nothing; otherwise it reads one line.  It touches neither the
    raw chunks nor the client's schema. *)
Theorem X8_command_reads_only_after_writing cmd code c :
  noVerb cmd ->
  let c' := (Command cmd code c).1 in
  issued c c' = [cmd]
  /\ chunks (conn c') = chunks (conn c)
  /\ overViewFormat c' = overViewFormat c
  /\ match writes (conn c) with
     | Some e :: _ =>
         (Command cmd code c).2 = Err e /\ lines (conn c') = lines (conn c)
     | _ => lines (conn c') = tail (lines (conn c))
     end.
Proof.
  intros _. cbv zeta. split.
  { apply issued_app. apply Command_frame. }
  unfold Command, st_bind, onConn, PrintfLine, ReadCodeLine, st_bind, ReadLine,
    st_lift, setConn. cbn.
  destruct (writes (conn c)) as [|[e|] ws]; cbn; auto;
    destruct (lines (conn c)) as [|[l|e] ls]; cbn; auto;
    destruct (parseCodeLine l code) as [[[? ?] ?]| |]; cbn; auto.
Qed.

(** X9: [connect] returns a client exactly when the first line of the
    connection is ["200 "] followed by a message; the message is the banner,
    and the client starts without schema, capabilities or compression.  Any
    other greeting, the 201 of a server without posting among them, gives no
    client. *)
Theorem X9_connect_accepts_only_200 k c :
  connect k = Ok c <->
  exists msg rest,
    lines k = Data ("200 " +:+ msg) :: rest
    /\ c = {| conn := {| sent := sent k; writes := writes k; lines := rest;
                         chunks := chunks k |};
              overViewFormat := []; capabilities := [];
              loadedCapabilities := false; Banner := msg; compress := false |}.
Proof.
  unfold connect, ReadCodeLine, st_bind, ReadLine, st_lift. split.
  - destruct (lines k) as [|[line|e] rest]; cbn; try discriminate.
    destruct (parseCodeLine line 200) as [[[code cont] msg]| |] eqn:E; cbn;
      try discriminate.
    destruct cont; cbn; [discriminate|]. intros [= <-].
    apply parseCodeLine_200 in E as [_ ->]. eauto.
  - intros (msg & rest & -> & ->).
    cbn.
    rewrite (proj2 (parseCodeLine_200 ("200 " +:+ msg) 200 msg)
               (conj eq_refl eq_refl)).
    reflexivity.
Qed.

(** *** Multi-line replies *)

Lemma dotLines_terminated ls : forall rest v,
  Forall (fun l => l <> endLine) ls ->
  dotLines (map Data ls ++ Data endLine :: rest) v
  = (rest, Ok (v ++ map unstuff ls)).
Proof.
  induction ls as [|l ls IH]; intros rest v Hall.
  - cbn. rewrite app_nil_r. reflexivity.
  - apply Forall_cons in Hall as [Hl Hall]. cbn [map app dotLines].
    rewrite (cutDot_unstuff l Hl), (IH _ _ Hall), <- app_assoc. reflexivity.
Qed.

Lemma ReadDotLines_terminated c ls rest :
  lines (conn c) = map Data ls ++ Data endLine :: rest ->
  Forall (fun l => l <> endLine) ls ->
  exists c', onConn ReadDotLines c = (c', Ok (map unstuff ls))
             /\ lines (conn c') = rest
             /\ overViewFormat c' = overViewFormat c
             /\ compress c' = compress c.
Proof.
  intros Hl Hall. unfold onConn, ReadDotLines. rewrite Hl.
  rewrite (dotLines_terminated ls rest [] Hall). cbn. eauto.
Qed.

Lemma Command_client_frame cmd code c :
  let c' := (Command cmd code c).1 in
  capabilities c' = capabilities c
  /\ loadedCapabilities c' = loadedCapabilities c /\ Banner c' = Banner c.
Proof.
  unfold Command, st_bind. cbv zeta.
  pose proof (onConn_frame (PrintfLine cmd) c) as (_ & H1 & H2 & H3 & _).
  destruct (onConn (PrintfLine cmd) c) as [c1 [[]| |]]; cbn [fst] in *; auto.
  pose proof (onConn_frame (ReadCodeLine code) c1) as (_ & H4 & H5 & H6 & _).
  cbv zeta in *. repeat split; congruence.
Qed.

(** X10: [Capabilities] never sets [loadedCapabilities].  A client whose flag
    is unset, as every client made by [connect] is, sends [CAPABILITIES] on
    every call and nothing else, and on success stores and returns the lines
    of the reply: after an accepted, terminated reply these are the lines
    before the terminator, in order and unstuffed, and what follows the
    terminator stays on the connection.  With the flag set it returns the
    stored list without touching the connection.  The schema is left
    alone. *)
Theorem X10_capabilities_are_fetched_on_every_call c :
  let c' := (Capabilities c).1 in
  loadedCapabilities c' = loadedCapabilities c
  /\ overViewFormat c' = overViewFormat c
  /\ (loadedCapabilities c = false -> issued c c' = ["CAPABILITIES"])
  /\ (loadedCapabilities c = true -> Capabilities c = (c, Ok (capabilities c)))
  /\ (forall ls, (Capabilities c).2 = Ok ls -> capabilities c' = ls)
  /\ (loadedCapabilities c = false ->
      forall c1 x ls rest,
        Command "CAPABILITIES" 101 c = (c1, Ok x) ->
        lines (conn c1) = map Data ls ++ Data endLine :: rest ->
        Forall (fun l => l <> endLine) ls ->
        (Capabilities c).2 = Ok (map unstuff ls)
        /\ capabilities c' = map unstuff ls
        /\ lines (conn c') = rest).
Proof.
  cbv zeta.
  assert (Hreply : loadedCapabilities c = false ->
      forall c1 x ls rest,
        Command "CAPABILITIES" 101 c = (c1, Ok x) ->
        lines (conn c1) = map Data ls ++ Data endLine :: rest ->
        Forall (fun l => l <> endLine) ls ->
        (Capabilities c).2 = Ok (map unstuff ls)
        /\ capabilities (Capabilities c).1 = map unstuff ls
        /\ lines (conn (Capabilities c).1) = rest).
  { intros Hl c1 x ls rest Hcmd Hlines Hall. unfold Capabilities.
    rewrite Hl. unfold st_bind. rewrite Hcmd.
    destruct (ReadDotLines_terminated c1 ls rest Hlines Hall)
      as (c2 & -> & Hr & _).
    unfold setCapabilities. cbn. auto. }
  cut (loadedCapabilities (Capabilities c).1 = loadedCapabilities c
       /\ overViewFormat (Capabilities c).1 = overViewFormat c
       /\ (loadedCapabilities c = false ->
           issued c (Capabilities c).1 = ["CAPABILITIES"])
       /\ (loadedCapabilities c = true ->
           Capabilities c = (c, Ok (capabilities c)))
       /\ (forall ls, (Capabilities c).2 = Ok ls ->
             capabilities (Capabilities c).1 = ls)).
  { intros (H1 & H2 & H3 & H4 & H5). auto 10. }
  clear Hreply. unfold Capabilities.
  destruct (loadedCapabilities c) eqn:Hl.
  { cbn. repeat split; auto; try discriminate. intros ls [= <-]. reflexivity. }
  unfold st_bind.
  pose proof (Command_frame "CAPABILITIES" 101 c) as (Hs & Hf & _).
  pose proof (Command_client_frame "CAPABILITIES" 101 c) as (_ & Hl1 & _).
  destruct (Command "CAPABILITIES" 101 c) as [c1 [x| |]]; cbn [fst snd] in *.
  2,3: repeat split; try congruence; try discriminate;
       intros _; apply issued_app; exact Hs.
  pose proof (ReadDotLines_frame c1) as (Hs2 & Hf2).
  pose proof (onConn_frame ReadDotLines c1) as (_ & _ & Hl2 & _).
  destruct (onConn ReadDotLines c1) as [c2 [ls| |]]; cbn [fst snd] in *.
  2,3: repeat split; try congruence; try discriminate;
       intros _; apply issued_app; congruence.
  unfold setCapabilities. cbn.
  split; [congruence|]. split; [congruence|]. split; [|split].
  - intros _. apply issued_app. cbn. congruence.
  - discriminate.
  - intros ls' [= <-]. reflexivity.
Qed.

Lemma Authenticate_as_commands user pass c :
  Authenticate user pass c
  = (exec _ <- Command ("authinfo user " +:+ user) 381;
     exec x <- Command ("authinfo pass " +:+ pass) 281;
     st_ret x.2) c.
Proof.
  unfold Authenticate, Command, st_bind.
  destruct (onConn (PrintfLine ("authinfo user " +:+ user)) c) as [c1 [[]| |]];
    try reflexivity.
  destruct (onConn (ReadCodeLine 381) c1) as [c2 [x| |]]; try reflexivity.
  destruct (onConn (PrintfLine ("authinfo pass " +:+ pass)) c2) as [c3 [[]| |]];
    reflexivity.
Qed.

(** X11: [Authenticate] sends the password line only after the reply to the
    user line was a 381.  If the user line cannot be written or is answered
    otherwise, that error is returned and only the user line was sent;
    a nil error means that both lines were sent, in this order. *)
Theorem X11_password_only_after_381 user pass c :
  let u := "authinfo user " +:+ user in
  let p := "authinfo pass " +:+ pass in
  let c' := (Authenticate user pass c).1 in
  (forall c1 e, Command u 381 c = (c1, Err e) ->
     Authenticate user pass c = (c1, Err e) /\ issued c c1 = [u])
  /\ (forall msg, (Authenticate user pass c).2 = Ok msg -> issued c c' = [u; p])
  /\ (p ∈ issued c c' -> exists c1 x, Command u 381 c = (c1, Ok x)).
Proof.
  cbv zeta. rewrite Authenticate_as_commands. unfold st_bind.
  pose proof (Command_frame ("authinfo user " +:+ user) 381 c) as (Hs & _ & _).
  assert (Hne : "authinfo pass " +:+ pass <> "authinfo user " +:+ user).
  { intros H. apply (f_equal (String.get 9)) in H. vm_compute in H. discriminate H. }
  destruct (Command ("authinfo user " +:+ user) 381 c) as [c1 [x| |]];
    cbn [fst snd] in *.
  - pose proof (Command_frame ("authinfo pass " +:+ pass) 281 c1) as (Hs2 & _ & _).
    split; [intros ? ? [= ]|]. split; [|eauto].
    intros msg _.
    destruct (Command ("authinfo pass " +:+ pass) 281 c1) as [c2 [y| |]];
      unfold st_ret; cbn [fst snd] in *; apply issued_app;
      rewrite Hs2, Hs, <- app_assoc; reflexivity.
  - split; [|split].
    + intros c1' e' [= <- <-]. split; [reflexivity|apply issued_app, Hs].
    + discriminate.
    + rewrite (issued_app _ _ _ Hs). intros Hin.
      apply list_elem_of_singleton in Hin. contradiction.
  - split; [|split].
    + intros ? ? [= ].
    + discriminate.
    + rewrite (issued_app _ _ _ Hs). intros Hin.
      apply list_elem_of_singleton in Hin. contradiction.
Qed.

(** *** strconv *)

Lemma parseUintLoop_error s0 m s : forall n,
  match parseUintLoop s0 m s n with
  | Ok _ => True
  | Err e => exists k, e = NumError "ParseUint" s0 k
  | Panic _ => False
  end.
Proof.
  induction s as [|c s IH]; intros n; cbn [parseUintLoop]; [exact I|].
  destruct (isDigit c); [|eauto].
  destruct (_ <=? n)%Z; [eauto|].
  destruct (_ || _); [eauto|]. apply IH.
Qed.

Lemma ParseInt_error s b :
  match ParseInt s b with
  | Ok _ => True
  | Err e => exists k, e = NumError "ParseInt" s k
  | Panic _ => False
  end.
Proof.
  destruct s as [|c s]; [cbn; eauto|]. unfold ParseInt.
  set (digits := if decide (c = "+"%char) then s
                 else if bool_decide (c = "-"%char) then s else String c s).
  unfold ParseUint. destruct (decide (digits = EmptyString)); [eauto|].
  pose proof (parseUintLoop_error digits (2 ^ b - 1) digits 0) as H.
  destruct (parseUintLoop digits (2 ^ b - 1) digits 0) as [un|e|p].
  - destruct (negb _ && _); [eauto|]. destruct (_ && _); [eauto|exact I].
  - destruct H as [k ->]. eauto.
  - contradiction.
Qed.

(** *** List *)

Lemma listStep_listed l og rv :
  listedAs l og ->
  listStep rv l = Ok (rv ++ groupsOf [og]).
Proof.
  unfold listStep, index. destruct og as [g|]; cbn [listedAs groupsOf].
  - intros (name & high & low & flag & more & -> & Hh & Hl & Hg). cbn.
    rewrite Hh, Hl. cbn. rewrite <- Hg. reflexivity.
  - intros (name & high & low & more & -> & Hfail). cbn. rewrite app_nil_r.
    pose proof (ParseInt_error high 64) as Hh.
    pose proof (ParseInt_error low 64) as Hl.
    destruct Hfail as [[e He]|[e He]]; rewrite He in *.
    + destruct (ParseInt low 64); [reflexivity|reflexivity|contradiction].
    + destruct (ParseInt high 64); [reflexivity|reflexivity|contradiction].
Qed.

Lemma groupsOf_app a b : groupsOf (a ++ b) = groupsOf a ++ groupsOf b.
Proof.
  induction a as [|[g|] a IH]; cbn; [reflexivity| |exact IH].
  rewrite IH. reflexivity.
Qed.

Lemma listLoop_listed ls : forall ogs tail rv,
  Forall2 listedAs ls ogs ->
  listLoop (ls ++ tail) rv = listLoop tail (rv ++ groupsOf ogs).
Proof.
  induction ls as [|l ls IH]; intros ogs tail rv H.
  - apply Forall2_nil_inv_l in H as ->. cbn. rewrite app_nil_r. reflexivity.
  - apply Forall2_cons_inv_l in H as (og & ogs' & Hl & H & ->).
    cbn [app listLoop]. rewrite (listStep_listed l og rv Hl). cbn [res_bind].
    rewrite (IH _ _ _ H), <- app_assoc.
    change (og :: ogs') with ([og] ++ ogs'). rewrite groupsOf_app. reflexivity.
Qed.

Lemma listStep_too_short l rv :
  tooShortForList l -> listStep rv l = Panic IndexOutOfRange.
Proof.
  unfold listStep, index.
  intros [Hlen|(name & high & low & h & lo & -> & Hh & Hl)].
  - destruct (Split l " ") as [|a [|b [|d parts]]]; cbn in *; try reflexivity.
    lia.
  - cbn. rewrite Hh, Hl. reflexivity.
Qed.

(** X12: of an accepted, terminated reply [List] returns the groups of the
    lines that it can parse, in the order of the lines, and skips without
    an error every line whose second or third field is no integer.  Fields
    after the fourth are ignored, and [Count] is left at zero. *)
Theorem X12_List_returns_the_parseable_lines sub c c1 x ls ogs rest :
  Command ("LIST " +:+ sub) 215 c = (c1, Ok x) ->
  lines (conn c1) = map Data ls ++ Data endLine :: rest ->
  Forall (fun l => l <> endLine) ls ->
  Forall2 listedAs (map unstuff ls) ogs ->
  exists c', List sub c = (c', Ok (groupsOf ogs))
             /\ lines (conn c') = rest
             /\ Forall (fun g => nntp.Count g = 0%Z) (groupsOf ogs).
Proof.
  intros Hcmd Hlines Hall Hogs. unfold List, st_bind. rewrite Hcmd.
  destruct (ReadDotLines_terminated c1 ls rest Hlines Hall) as (c' & -> & Hr & _).
  unfold st_lift. exists c'.
  rewrite <- (app_nil_r (map unstuff ls)), (listLoop_listed _ _ _ _ Hogs).
  cbn. split; [reflexivity|]. split; [exact Hr|].
  clear -Hogs. induction Hogs as [|l og ls' ogs Hl _ IH]; [constructor|].
  destruct og as [g|]; cbn [groupsOf]; [|exact IH].
  constructor; [|exact IH].
  destruct Hl as (? & ? & ? & ? & ? & _ & _ & _ & ->). reflexivity.
Qed.

(** X13: a line of the reply with fewer than three fields, or with three
    of which the second and third are integers, makes [List] panic with an
    index out of range, after the whole reply has been read: it returns
    neither the groups before that line nor an error. *)
Theorem X13_List_panics_on_a_short_line sub c c1 x pre l post ogs rest :
  Command ("LIST " +:+ sub) 215 c = (c1, Ok x) ->
  lines (conn c1) = map Data (pre ++ l :: post) ++ Data endLine :: rest ->
  Forall (fun l => l <> endLine) (pre ++ l :: post) ->
  Forall2 listedAs (map unstuff pre) ogs ->
  tooShortForList (unstuff l) ->
  exists c', List sub c = (c', Panic IndexOutOfRange) /\ lines (conn c') = rest.
Proof.
  intros Hcmd Hlines Hall Hogs Hshort. unfold List, st_bind. rewrite Hcmd.
  destruct (ReadDotLines_terminated c1 _ rest Hlines Hall) as (c' & -> & Hr & _).
  unfold st_lift. exists c'. split; [|exact Hr].
  rewrite map_app. cbn [map]. rewrite (listLoop_listed _ _ _ _ Hogs).
  cbn [listLoop]. rewrite (listStep_too_short _ _ Hshort). reflexivity.
Qed.

(** *** Group *)

(** X14: [Group] takes the count, the low and high water marks and the name
    from the first four fields of an accepted reply, whatever follows them:
    the check [len(parts) != 4] has no effect, its error being overwritten
    by the next assignment to [err]. *)
Theorem X14_Group_reads_the_first_four_fields
    name c c1 code msg cnt lo hi g more vc vl vh :
  Command ("GROUP " +:+ name) 211 c = (c1, Ok (code, msg)) ->
  Split msg " "%char = cnt :: lo :: hi :: g :: more ->
  ParseInt cnt 64 = Ok vc -> ParseInt lo 64 = Ok vl -> ParseInt hi 64 = Ok vh ->
  exists grp, Group name c = (c1, Ok grp)
              /\ nntp.Name grp = g /\ nntp.Count grp = vc
              /\ nntp.Low grp = vl /\ nntp.High grp = vh.
Proof.
  intros Hcmd Hs Hc Hl Hh. unfold Group, st_bind, st_lift, index. rewrite Hcmd.
  cbn [snd]. rewrite Hs. cbn. rewrite Hc, Hl, Hh. cbn. eauto 10.
Qed.

(** X15: an accepted reply with fewer than four fields never gives the
    error of the length check: [Group] panics with an index out of range,
    or returns the error of [strconv.ParseInt] on one of the fields. *)
Theorem X15_Group_short_reply name c c1 code msg :
  Command ("GROUP " +:+ name) 211 c = (c1, Ok (code, msg)) ->
  length (Split msg " "%char) < 4 ->
  Group name c = (c1, Panic IndexOutOfRange)
  \/ exists num k, num ∈ Split msg " "%char
                   /\ Group name c = (c1, Err (NumError "ParseInt" num k)).
Proof.
  intros Hcmd Hlen. unfold Group, st_bind, st_lift, index. rewrite Hcmd.
  cbn [snd].
  destruct (Split msg " ") as [|a [|b [|d [|g parts]]]]; cbn in *;
    try lia; clear Hlen.
  - left. reflexivity.
  - pose proof (ParseInt_error a 64) as Ha.
    destruct (ParseInt a 64); cbn; [left; reflexivity| |contradiction].
    destruct Ha as [k ->]. right. exists a, k. split; [repeat constructor|reflexivity].
  - pose proof (ParseInt_error a 64) as Ha. pose proof (ParseInt_error b 64) as Hb.
    destruct (ParseInt a 64); cbn; [| |contradiction].
    + destruct (ParseInt b 64); cbn; [left; reflexivity| |contradiction].
      destruct Hb as [k ->]. right. exists b, k. split; [repeat constructor|reflexivity].
    + destruct Ha as [k ->]. right. exists a, k. split; [repeat constructor|reflexivity].
  - pose proof (ParseInt_error a 64) as Ha. pose proof (ParseInt_error b 64) as Hb.
    pose proof (ParseInt_error d 64) as Hd.
    destruct (ParseInt a 64); cbn; [| |contradiction].
    + destruct (ParseInt b 64); cbn; [| |contradiction].
      * destruct (ParseInt d 64); cbn; [left; reflexivity| |contradiction].
        destruct Hd as [k ->]. right. exists d, k. split; [repeat constructor|reflexivity].
      * destruct Hb as [k ->]. right. exists b, k. split; [repeat constructor|reflexivity].
    + destruct Ha as [k ->]. right. exists a, k. split; [repeat constructor|reflexivity].
Qed.

(** *** Article, Head and Body *)

Lemma splitFirst_app sep a b :
  lacks sep a -> splitFirst sep (a +:+ String sep b) = Some (a, b).
Proof.
  induction a as [|c a IH]; intros H.
  - change (EmptyString +:+ String sep b) with (String sep b). cbn.
    destruct (decide (sep = sep)); [reflexivity|contradiction].
  - change (String c a +:+ String sep b) with (String c (a +:+ String sep b)).
    cbn [splitFirst]. destruct (decide (c = sep)) as [->|].
    + exfalso. apply (H 0). reflexivity.
    + rewrite IH; [reflexivity|]. intros i. apply (H (S i)).
Qed.

Lemma splitFirst_lacks sep s : lacks sep s -> splitFirst sep s = None.
Proof.
  induction s as [|c s IH]; intros H; [reflexivity|]. cbn [splitFirst].
  destruct (decide (c = sep)) as [->|].
  - exfalso. apply (H 0). reflexivity.
  - rewrite IH; [reflexivity|]. intros i. apply (H (S i)).
Qed.

Lemma retrieves_spec verb expected :
  retrieves
    (fun spec => exec _ <- onConn (PrintfLine (verb +:+ spec)); articleish expected)
    verb expected.
Proof.
  intros spec c. cbv zeta. split; [|split; [|split]].
  - apply issued_app. unfold st_bind, articleish, st_bind, onConn, PrintfLine,
      ReadCodeLine, st_bind, ReadLine, st_lift, setConn. cbn.
    destruct (writes (conn c)) as [|[e|] ws]; cbn; auto;
      destruct (lines (conn c)) as [|[l|e] ls]; cbn; auto;
      destruct (parseCodeLine l expected) as [[[? []] ?]| |]; cbn; auto.
  - intros e ws Hw. unfold st_bind, onConn, PrintfLine. rewrite Hw. cbn. auto.
  - intros c0 c1 code a b n Hp Hr Ha Hn. unfold st_bind, articleish, st_bind.
    rewrite Hp, Hr. unfold st_lift, SplitN2, index. cbn [snd].
    rewrite (splitFirst_app _ _ _ Ha). cbn. rewrite Hn. reflexivity.
  - intros c0 c1 code msg n Hp Hr Hm Hn. unfold st_bind, articleish, st_bind.
    rewrite Hp, Hr. unfold st_lift, SplitN2, index. cbn [snd].
    rewrite (splitFirst_lacks _ _ Hm). cbn. rewrite Hn. reflexivity.
Qed.

(** X16: [Article], [Head] and [Body] write their command line and nothing
    else; when it cannot be written they read nothing; of an accepted reply
    they return the number before the first space and all the text after
    it; and an accepted reply that is a number without a space after it
    makes them panic with an index out of range. *)
Theorem X16_article_head_body :
  retrieves Article "ARTICLE " 220
  /\ retrieves Head "HEAD " 221
  /\ retrieves Body "BODY " 222.
Proof.
  split; [|split].
  - exact (retrieves_spec "ARTICLE " 220).
  - exact (retrieves_spec "HEAD " 221).
  - exact (retrieves_spec "BODY " 222).
Qed.

(** *** EnableCompression *)

(** X17: [EnableCompression] sends [XFEATURE COMPRESS GZIP] and nothing else
    and does not touch the schema; compression is on afterwards exactly
    when it was on before or the reply was accepted, and a nil error means
    that it is on. *)
Theorem X17_compression_needs_the_290 c :
  let cmd := "XFEATURE COMPRESS GZIP" in
  let c' := (EnableCompression c).1 in
  issued c c' = [cmd]
  /\ overViewFormat c' = overViewFormat c
  /\ (compress c' = true <->
      compress c = true \/ exists x, (Command cmd 290 c).2 = Ok x)
  /\ ((EnableCompression c).2 = Ok tt <-> exists x, (Command cmd 290 c).2 = Ok x).
Proof.
  cbv zeta. unfold EnableCompression, st_bind.
  pose proof (Command_frame "XFEATURE COMPRESS GZIP" 290 c) as (Hs & Hf & Hc).
  destruct (Command "XFEATURE COMPRESS GZIP" 290 c) as [c1 [x| |]];
    cbn [fst snd] in *.
  - unfold setCompress. cbn. split; [apply issued_app; exact Hs|].
    split; [exact Hf|]. split; split; eauto.
  - split; [apply issued_app; exact Hs|]. split; [exact Hf|]. rewrite Hc.
    split; split; try discriminate; auto.
    + intros [H|[x H]]; [exact H|discriminate].
    + intros [x H]. discriminate.
  - split; [apply issued_app; exact Hs|]. split; [exact Hf|]. rewrite Hc.
    split; split; try discriminate; auto.
    + intros [H|[x H]]; [exact H|discriminate].
    + intros [x H]. discriminate.
Qed.

(** *** readDotLines, for any callback *)

Lemma plainLines_feed {St} (f : St -> string -> St * res unit) ls :
  forall tail s s',
  Forall (fun l => l <> endLine) ls ->
  feed f (map unstuff ls) s = (s', Ok tt) ->
  plainLines f (map Data ls ++ tail) s = plainLines f tail s'.
Proof.
  induction ls as [|l ls IH]; intros tail s s' Hall Hfeed.
  - cbn in Hfeed. injection Hfeed as <-. reflexivity.
  - apply Forall_cons in Hall as [Hl Hall]. cbn [map app plainLines feed] in *.
    rewrite (cutDot_unstuff l Hl).
    destruct (f s (unstuff l)) as [s1 [[]| |]]; try discriminate.
    apply IH; assumption.
Qed.

Lemma compressedLines_feed {St} (f : St -> string -> St * res unit) n :
  forall reader s,
  String.length (pending reader) <= n ->
  compressedLines f reader s
  = match feed f (map TrimSpace (completeLines (pending reader))) s with
    | (s', Ok _) => (s', match final reader with EOF => Ok tt | e => Err e end)
    | (s', Err e) => (s', Err e)
    | (s', Panic p) => (s', Panic p)
    end.
Proof.
  induction n as [|n IH]; intros reader s Hn; rewrite compressedLines_equation_1;
  generalize (Logic.inspect (ReadString reader LF));
  intros [[r' [line oe]] Heq]; pose proof Heq as Heq'; unfold ReadString in Heq';
  unfold completeLines; rewrite cutAt_linesFrom;
  destruct (cutAt LF (pending reader)) as [[l rest]|] eqn:E;
  injection Heq' as <- <- <-.
  all: try (apply cutAt_shorter in E).
  all: try (destruct (final reader); cbn; reflexivity).
  - lia.
  - cbn [compressedLines_unfold_clause_1 map feed].
    change (EmptyString +:+ l) with l.
    destruct (f s (TrimSpace l)) as [s1 [[]| |]]; try reflexivity.
    rewrite IH by (cbn [pending]; lia). reflexivity.
Qed.

Lemma feed_collect parseDate fmt ls : forall arts v,
  Forall2 (fun l a => parseArticleOverview parseDate l fmt = Ok a) ls arts ->
  feed (collect parseDate fmt) ls v = (v ++ arts, Ok tt).
Proof.
  induction ls as [|l ls IH]; intros arts v H.
  - apply Forall2_nil_inv_l in H as ->. cbn. rewrite app_nil_r. reflexivity.
  - apply Forall2_cons_inv_l in H as (a & arts' & Hl & H & ->).
    cbn [feed]. unfold collect at 1. rewrite Hl, (IH _ _ H), <- app_assoc.
    reflexivity.
Qed.

(** The setters return an error or a record, and leave the identifier. *)
Lemma setter_sound parseDate h set r item :
  (forall s p, parseDate s <> Panic p) ->
  infoSetters parseDate h = Some set ->
  match set r item with
  | Ok r' => Id r' = Id r
  | Err _ => True
  | Panic _ => False
  end.
Proof.
  unfold infoSetters. intros Hd Hset.
  pose proof (parseUintLoop_error item (2 ^ 32 - 1) item 0) as Hu.
  repeat (destruct (decide (h = _)) as [->|?] in Hset;
    [ injection Hset as <-; try reflexivity;
      try (pose proof (Hd item) as Hd'; destruct (parseDate item);
           cbn; [reflexivity|exact I|eapply Hd'; reflexivity]);
      try (unfold ParseUint; destruct (decide (item = EmptyString));
           [exact I|];
           destruct (parseUintLoop item (2 ^ 32 - 1) item 0);
           cbn; [reflexivity|exact I|exact Hu])
    | ]).
  discriminate.
Qed.

Lemma applySetters_sound parseDate ps :
  (forall s p, parseDate s <> Panic p) ->
  forall r,
  match applySetters parseDate ps r with
  | Ok r' => Id r' = Id r
  | Err _ => True
  | Panic _ => False
  end.
Proof.
  intros Hd. induction ps as [|[h item] ps IH]; intros r; cbn [applySetters].
  - reflexivity.
  - destruct (infoSetters parseDate h) as [set|] eqn:Hset; [|apply IH].
    pose proof (setter_sound parseDate h set r item Hd Hset) as Hs.
    destruct (set r item) as [r1| |]; cbn [res_bind]; [|exact I|exact Hs].
    specialize (IH r1). destruct (applySetters parseDate ps r1); [congruence|auto..].
Qed.

Section WithCollaborators.
Variable parseDate : string -> res Time.
Variable zlibNewReader : list byte -> res bufReader.
Variable yencDecode : st (list (rd (list byte))) (list byte).

(** X18: on an accepted reply whose lines before the terminator all parse,
    [Over] and, without compression, [XOver] return the same records, one
    for each line in the order of the lines, and leave on the connection
    what follows the terminator. *)
Theorem X18_Over_and_XOver_return_the_records start end_ c c0 ls arts rest :
  ensureOverViewFormat c = (c0, Ok tt) ->
  compress c0 = false ->
  Forall (fun l => l <> endLine) ls ->
  Forall2 (fun l a =>
    parseArticleOverview parseDate (unstuff l) (overViewFormat c0) = Ok a) ls arts ->
  (forall c1 x,
     Command ("OVER " +:+ formatInt start +:+ "-" +:+ formatInt end_) 224 c0
       = (c1, Ok x) ->
     lines (conn c1) = map Data ls ++ Data endLine :: rest ->
     exists c', Over parseDate start end_ c = (c', Ok arts)
                /\ lines (conn c') = rest)
  /\ (forall c1 x,
        Command ("XOVER " +:+ formatInt start +:+ "-" +:+ formatInt end_) 224 c0
          = (c1, Ok x) ->
        lines (conn c1) = map Data ls ++ Data endLine :: rest ->
        exists c', XOver parseDate zlibNewReader start end_ c = (c', Ok arts)
                   /\ lines (conn c') = rest).
Proof.
  intros Hens Hc Hall Hparse. split; intros c1 x Hcmd Hlines.
  - unfold Over, st_bind. rewrite Hens, Hcmd.
    assert (Hf : overViewFormat c1 = overViewFormat c0).
    { match type of Hcmd with Command ?cmd _ _ = _ =>
        pose proof (Command_frame cmd 224 c0) as (_ & Hf & _) end.
      rewrite Hcmd in Hf. exact Hf. } rewrite Hf, Hlines.
    rewrite (overLines_parsed parseDate _ ls arts _ []).
    + cbn [overLines]. unfold endLine. rewrite cutDot_terminator. cbn. eauto.
    + clear -Hall Hparse. induction Hparse as [|l a ls arts Hl _ IH]; [constructor|].
      apply Forall_cons in Hall as [Hne Hall]. constructor; [|exact (IH Hall)].
      exists (unstuff l). split; [apply cutDot_unstuff, Hne|exact Hl].
  - unfold XOver, st_bind. rewrite Hens, Hcmd.
    assert (overViewFormat c1 = overViewFormat c0
                  /\ compress c1 = compress c0) as [Hf Hk].
    { match type of Hcmd with Command ?cmd _ _ = _ =>
        pose proof (Command_frame cmd 224 c0) as (_ & Hf & Hk) end.
      rewrite Hcmd in Hf, Hk. auto. }
    unfold readDotLines. rewrite Hk, Hc, Hlines, Hf.
    change (fun (v : list ArticleOverview) (line : string) =>
              match parseArticleOverview parseDate line (overViewFormat c0) with
              | Ok art => (v ++ [art], Ok tt)
              | Err e => (v, Err e)
              | Panic p => (v, Panic p)
              end) with (collect parseDate (overViewFormat c0)).
    rewrite (plainLines_feed _ ls _ [] arts Hall).
    + cbn [plainLines]. unfold endLine. rewrite cutDot_terminator. cbn. eauto.
    + apply (feed_collect parseDate _ _ arts []).
      clear -Hparse. induction Hparse; constructor; assumption.
Qed.

(** X19: with compression on, [XOver] takes its records from the complete
    lines of the decompressed text, each trimmed by [strings.TrimSpace]
    before it is parsed: when they all parse and the text ends with
    [io.EOF], it returns one record for each, in order.  The lines of the
    connection are not read. *)
Theorem X19_XOver_compressed_returns_the_records
    start end_ c c0 c1 x k reader arts :
  ensureOverViewFormat c = (c0, Ok tt) ->
  compress c0 = true ->
  Command ("XOVER " +:+ formatInt start +:+ "-" +:+ formatInt end_) 224 c0
    = (c1, Ok x) ->
  getCompressedReader zlibNewReader (conn c1) = (k, Ok reader) ->
  final reader = EOF ->
  Forall2 (fun l a => parseArticleOverview parseDate l (overViewFormat c0) = Ok a)
    (map TrimSpace (completeLines (pending reader))) arts ->
  XOver parseDate zlibNewReader start end_ c = (setConn c1 k, Ok arts)
  /\ lines k = lines (conn c1).
Proof.
  intros Hens Hc Hcmd Hreader Hfinal Hparse.
  unfold XOver, st_bind. rewrite Hens, Hcmd.
  assert (overViewFormat c1 = overViewFormat c0
                /\ compress c1 = compress c0) as [Hf Hk].
  { match type of Hcmd with Command ?cmd _ _ = _ =>
      pose proof (Command_frame cmd 224 c0) as (_ & Hf & Hk) end.
    rewrite Hcmd in Hf, Hk. auto. }
  unfold readDotLines. rewrite Hk, Hc, Hreader, Hf.
  change (fun (v : list ArticleOverview) (line : string) =>
            match parseArticleOverview parseDate line (overViewFormat c0) with
            | Ok art => (v ++ [art], Ok tt)
            | Err e => (v, Err e)
            | Panic p => (v, Panic p)
            end) with (collect parseDate (overViewFormat c0)).
  rewrite (compressedLines_feed _ _ reader [] (le_n _)).
  rewrite (feed_collect parseDate _ _ arts [] Hparse), Hfinal. cbn.
  split; [reflexivity|].
  unfold getCompressedReader in Hreader.
  destruct (readCompressed (chunks (conn c1)) []) as [[R' io] r].
  injection Hreader as <- _. reflexivity.
Qed.

(** X20: when the callback of [readDotLines] returns an error on a line of
    an uncompressed reply, [readDotLines] returns that error at once: the
    lines after that one, the terminator among them, are still on the
    connection, where the reply to the next command is expected. *)
Theorem X20_callback_error_leaves_the_reply_unread
    {St} (f : St -> string -> St * res unit) c s pre l rest s1 s2 e :
  compress c = false ->
  lines (conn c) = map Data pre ++ Data l :: rest ->
  Forall (fun l => l <> endLine) (pre ++ [l]) ->
  feed f (map unstuff pre) s = (s1, Ok tt) ->
  f s1 (unstuff l) = (s2, Err e) ->
  exists c', readDotLines zlibNewReader f (c, s) = ((c', s2), Err e)
             /\ lines (conn c') = rest.
Proof.
  intros Hc Hlines Hall Hfeed Hl. apply Forall_app in Hall as [Hpre Hne].
  apply Forall_cons in Hne as [Hne _].
  unfold readDotLines. rewrite Hc, Hlines.
  rewrite (plainLines_feed f pre _ s s1 Hpre Hfeed). cbn [plainLines].
  rewrite (cutDot_unstuff l Hne), Hl. cbn. eauto.
Qed.

(** X21: with compression on, [readDotLines] first reads the whole
    compressed reply and then hands to the callback, whatever it is, the
    complete lines of the decompressed text in order, each trimmed by
    [strings.TrimSpace], until the callback fails; when the callback
    accepts them all the result is nil if the text ends with [io.EOF] and
    the error of the decompressor otherwise.  Text after the last line feed
    is not handed over. *)
Theorem X21_compressed_reply_feeds_the_callback
    {St} (f : St -> string -> St * res unit) c s k reader :
  compress c = true ->
  getCompressedReader zlibNewReader (conn c) = (k, Ok reader) ->
  readDotLines zlibNewReader f (c, s)
  = match feed f (map TrimSpace (completeLines (pending reader))) s with
    | (s', Ok _) =>
        ((setConn c k, s'), match final reader with EOF => Ok tt | e => Err e end)
    | (s', Err e) => ((setConn c k, s'), Err e)
    | (s', Panic p) => ((setConn c k, s'), Panic p)
    end.
Proof.
  intros Hc Hreader. unfold readDotLines. rewrite Hc, Hreader.
  rewrite (compressedLines_feed f _ reader s (le_n _)).
  destruct (feed f (map TrimSpace (completeLines (pending reader))) s)
    as [s' [[]| |]]; reflexivity.
Qed.

(** X22: a client without a schema that gets an accepted, terminated
    announcement stores as its schema the tags of the announced lines, in
    their order, a line without a tag adding nothing; what follows the
    terminator stays on the connection. *)
Theorem X22_negotiated_schema c c1 x ls rest :
  overViewFormat c = [] ->
  Command "LIST OVERVIEW.FMT" 215 c = (c1, Ok x) ->
  lines (conn c1) = map Data ls ++ Data endLine :: rest ->
  Forall (fun l => l <> endLine) ls ->
  exists c', ensureOverViewFormat c = (c', Ok tt)
             /\ overViewFormat c'
                = concat (map (overviewFmtCase []) (map unstuff ls))
             /\ lines (conn c') = rest
             /\ issued c c' = ["LIST OVERVIEW.FMT"].
Proof.
  intros Hempty Hcmd Hlines Hall. unfold ensureOverViewFormat. rewrite Hempty.
  cbn [length]. destruct (decide (0 = 0)) as [_|]; [|contradiction].
  unfold st_bind, overviewFmt, st_bind. rewrite Hcmd.
  pose proof (Command_frame "LIST OVERVIEW.FMT" 215 c) as (Hs & _).
  rewrite Hcmd in Hs. cbn [fst] in Hs.
  pose proof (ReadDotLines_frame c1) as (Hs2 & _).
  destruct (ReadDotLines_terminated c1 ls rest Hlines Hall) as (c' & Hrd & Hr & _).
  rewrite Hrd in *. cbn [fst] in Hs2.
  unfold st_ret, setOverViewFormat. eexists. split; [reflexivity|]. cbn.
  split; [apply overviewFmt_in_order|]. split; [exact Hr|].
  unfold issued. cbn. rewrite Hs2, Hs. apply drop_app_length.
Qed.

(** X23: [parseArticleOverview] indexes [items[0]], [format[i-1]] and
    [items[i]] without a panic, on every line and schema, as long as the
    date parser does not panic; and the identifier of the record it returns
    is the first field of the line as [strconv.ParseUint] reads it, which no
    setter changes. *)
Theorem X23_parse_does_not_panic line format :
  (forall s p, parseDate s <> Panic p) ->
  match parseArticleOverview parseDate line format with
  | Ok r => exists item0 items,
              Split line TAB = item0 :: items /\ ParseUint item0 64 = Ok (Id r)
  | Err _ => True
  | Panic _ => False
  end.
Proof.
  intros Hd. rewrite parseArticleOverview_zip.
  destruct (Split_nonempty line TAB) as (item0 & items & ->).
  pose proof (parseUintLoop_error item0 (2 ^ 64 - 1) item0 0) as Hu.
  unfold ParseUint in *. destruct (decide (item0 = EmptyString)); [exact I|].
  destruct (parseUintLoop item0 (2 ^ 64 - 1) item0 0) as [id| |] eqn:Hp;
    cbn [res_bind]; [|exact I|exact Hu].
  match goal with |- context [applySetters _ ?ps ?r] =>
    pose proof (applySetters_sound parseDate ps Hd r) as Hs;
    destruct (applySetters parseDate ps r) as [r'| |]
  end; [|exact I|exact Hs].
  exists item0, items. split; [reflexivity|].
  destruct (decide (item0 = EmptyString)); [contradiction|].
  cbn [Id] in Hs. rewrite Hs. first [exact Hp|reflexivity].
Qed.

(** X24: [Xzver] never returns a record: with a nil error its result is the
    nil slice.  After an accepted reply it hands the raw reader of the
    connection to the yenc decoder and reads no line itself. *)
Theorem X24_Xzver_returns_no_record start end_ c :
  (forall r, (Xzver yencDecode start end_ c).2 = Ok r -> r = [])
  /\ (forall c0 c1 x,
        ensureOverViewFormat c = (c0, Ok tt) ->
        Command ("XZVER " +:+ formatInt start +:+ "-" +:+ formatInt end_) 224 c0
          = (c1, Ok x) ->
        let c' := (Xzver yencDecode start end_ c).1 in
        lines (conn c') = lines (conn c1)
        /\ chunks (conn c') = (yencDecode (chunks (conn c1))).1).
Proof.
  split.
  - intros r. unfold Xzver, st_bind, st_ret.
    destruct (ensureOverViewFormat c) as [c0 [[]| |]]; cbn [fst snd];
      try discriminate.
    match goal with |- context [Command ?cmd 224 c0] =>
      destruct (Command cmd 224 c0) as [c1 [x| |]] end; cbn [fst snd];
      try discriminate.
    unfold onConn.
    destruct (yencDecode (chunks (conn c1))) as [R' [y| |]]; cbn [fst snd];
      try discriminate.
    intros [= <-]. reflexivity.
  - intros c0 c1 x Hens Hcmd. cbv zeta. unfold Xzver, st_bind, st_ret.
    rewrite Hens, Hcmd. unfold onConn.
    destruct (yencDecode (chunks (conn c1))) as [R' [y| |]]; cbn; auto.
Qed.

End WithCollaborators.

(** *** Post *)

Section WithDotWriter.
Variable Reader : Type.
Variable copyDot : Reader -> st Conn unit.
Variable closeDot : st Conn unit.

(** X25: [Post] hands the article to the connection only after the reply
    340 to [POST]: when the command cannot be written or is answered
    otherwise, it returns that error and the copy is not started.  When the
    copy fails it returns that error without closing the dot writer or
    reading a reply.  And an error of [w.Close()] is lost: after it [Post]
    goes on to read the reply 240, and its result is the result of that
    read. *)
Theorem X25_Post_sends_the_article_after_340 (r : Reader) c :
  (forall c1 e, Command "POST" 340 c = (c1, Err e) ->
     Post Reader copyDot closeDot r c = (c1, Err e))
  /\ (forall c1 x k e,
        Command "POST" 340 c = (c1, Ok x) ->
        copyDot r (conn c1) = (k, Err e) ->
        Post Reader copyDot closeDot r c = (setConn c1 k, Err e))
  /\ (forall c1 x k k' rc,
        Command "POST" 340 c = (c1, Ok x) ->
        copyDot r (conn c1) = (k, Ok tt) ->
        closeDot k = (k', rc) ->
        (forall p, rc <> Panic p) ->
        Post Reader copyDot closeDot r c
        = let '(c2, r2) := onConn (ReadCodeLine 240) (setConn c1 k') in
          (c2, do _ <- r2; Ok tt)).
Proof.
  assert (Hpost : Post Reader copyDot closeDot r c
    = (exec _ <- Command "POST" 340;
       exec _ <- onConn (copyDot r);
       exec _ <- onConn (fun k =>
         let '(k', rc) := closeDot k in
         (k', match rc with Panic p => Panic p | _ => Ok tt end));
       exec _ <- onConn (ReadCodeLine 240);
       st_ret tt) c).
  { unfold Post, Command, st_bind.
    destruct (onConn (PrintfLine "POST") c) as [c1 [[]| |]]; reflexivity. }
  rewrite Hpost. unfold st_bind. split; [|split].
  - intros c1 e ->. reflexivity.
  - intros c1 x k e -> Hcopy. unfold onConn. rewrite Hcopy. reflexivity.
  - intros c1 x k k' rc -> Hcopy Hclose Hrc. unfold onConn at 1. rewrite Hcopy.
    unfold onConn at 1. cbn [conn setConn]. rewrite Hclose.
    destruct rc as [[]|e|p]; [| |destruct (Hrc p eq_refl)];
      cbn [setConn conn overViewFormat capabilities loadedCapabilities Banner
           compress];
      match goal with |- context [onConn (ReadCodeLine 240) ?c2] =>
        change c2 with (setConn c1 k');
        destruct (onConn (ReadCodeLine 240) (setConn c1 k')) as [c3 [y| |]]
      end; reflexivity.
Qed.

End WithDotWriter.

(** *** The expected code of Command *)

Lemma threeDigits_all : forallb threeDigits (map Z.of_nat (seq 100 900)) = true.
Proof. vm_compute. reflexivity. Qed.

Lemma formatInt_three code :
  (100 <= code < 1000)%Z ->
  exists a b c,
    formatInt code = String a (String b (String c EmptyString))
    /\ Atoi (String a (String b (String c EmptyString))) = Ok code.
Proof.
  intros Hc. pose proof threeDigits_all as H. rewrite forallb_forall in H.
  specialize (H code). unfold threeDigits in H.
  destruct (formatInt code) as [|a [|b [|d [|? ?]]]];
    try (assert (false = true) by
           (apply H, in_map_iff; exists (Z.to_nat code);
            split; [lia|apply in_seq; lia]); discriminate).
  exists a, b, d. split; [reflexivity|].
  destruct (Atoi (String a (String b (String d EmptyString)))) as [m| |];
    try (assert (false = true) by
           (apply H, in_map_iff; exists (Z.to_nat code);
            split; [lia|apply in_seq; lia]); discriminate).
  f_equal. apply Z.eqb_eq, H, in_map_iff. exists (Z.to_nat code).
  split; [lia|apply in_seq; lia].
Qed.

Lemma parseCodeLine_reply code msg expect :
  (100 <= code < 1000)%Z ->
  parseCodeLine (replyLine code msg) expect
  = if decide ((1 <= expect < 10 /\ code `quot` 100 <> expect)
               \/ (10 <= expect < 100 /\ code `quot` 10 <> expect)
               \/ (100 <= expect < 1000 /\ code <> expect))%Z
    then Err (CodeError code msg)
    else Ok (code, false, msg).
Proof.
  intros Hc. destruct (formatInt_three code Hc) as (a & b & d & Hf & Ha).
  unfold replyLine. rewrite Hf.
  change (String a (String b (String d EmptyString)) +:+ String " " msg)
    with (String a (String b (String d (String " " msg)))).
  unfold parseCodeLine.
  destruct (decide (String.length _ < 4 \/ _)) as [[Hl|[Hs _]]|_].
  - cbn in Hl. lia.
  - exfalso. apply Hs. reflexivity.
  - cbn [substring byteAt String.get String.length Nat.sub].
    rewrite Ha. destruct (decide (code < 100)%Z); [lia|].
    rewrite ?Nat.sub_0_r, substring_all. reflexivity.
Qed.

(** X26: what [Command] makes of a reply with a three-digit code, as its
    comment promises.  With an expected code of three digits the reply is
    accepted exactly when it has that code; with an expected code of one
    digit, exactly when its code begins with that digit (expecting 2, any
    code from 200 to 299); with an expected code of zero or less, always.
    A reply that is not accepted is returned as the error that carries its
    code and text. *)
Theorem X26_expected_code_of_Command cmd expect c c0 code msg rest :
  (100 <= code < 1000)%Z ->
  onConn (PrintfLine cmd) c = (c0, Ok tt) ->
  lines (conn c0) = Data (replyLine code msg) :: rest ->
  let r := (Command cmd expect c).2 in
  (r = Ok (code, msg) \/ r = Err (CodeError code msg))
  /\ ((100 <= expect < 1000)%Z -> (r = Ok (code, msg) <-> code = expect))
  /\ ((1 <= expect < 10)%Z ->
      (r = Ok (code, msg) <-> (100 * expect <= code < 100 * expect + 100)%Z))
  /\ ((expect <= 0)%Z -> r = Ok (code, msg)).
Proof.
  intros Hc Hp Hl. cbv zeta.
  unfold Command, st_bind. rewrite Hp.
  unfold onConn, ReadCodeLine, st_bind, ReadLine, st_lift. rewrite Hl.
  cbn [snd fst]. rewrite (parseCodeLine_reply code msg expect Hc).
  rewrite !Z.quot_div_nonneg by lia.
  destruct (decide _) as [Hbad|Hgood]; cbn [res_bind snd].
  - split; [right; reflexivity|]. split; [|split].
    + intros He. split; [discriminate|]. intros ->. exfalso. lia.
    + intros He. split; [discriminate|]. intros Hr. exfalso.
      destruct Hbad as [[_ Hq]|[[? _]|[? _]]]; [|lia|lia].
      apply Hq. symmetry. apply (Z.div_unique code 100 expect (code - 100 * expect)); lia.
    + intros He. exfalso. lia.
  - split; [left; reflexivity|]. split; [|split].
    + intros He. split; [|reflexivity]. intros _.
      destruct (decide (code = expect)); [assumption|]. exfalso. apply Hgood.
      right. right. lia.
    + intros He. split; [|reflexivity]. intros _.
      destruct (decide (code / 100 = expect)%Z) as [<-|Hne].
      * pose proof (Z.mul_div_le code 100 ltac:(lia)).
        pose proof (Z.mul_succ_div_gt code 100 ltac:(lia)). lia.
      * exfalso. apply Hgood. left. lia.
    + reflexivity.
Qed.

(** *** The theorems above at concrete sessions *)

Lemma X8_witness :
  let c := mkPlainClient [] [Data "111 20190103185844"; Data "next"] in
  let c' := (Command "DATE" 111 c).1 in
  issued c c' = ["DATE"]
  /\ chunks (conn c') = chunks (conn c)
  /\ overViewFormat c' = overViewFormat c
  /\ lines (conn c') = [Data "next"].
Proof.
  cbv zeta.
  apply (X8_command_reads_only_after_writing "DATE" 111
           (mkPlainClient [] [Data "111 20190103185844"; Data "next"])).
  apply lacks_check. reflexivity.
Defined.

Lemma X9_witness :
  connect {| sent := []; writes := [];
             lines := [Data "200 news.example.com ready"; Data "next"];
             chunks := [] |}
  = Ok {| conn := {| sent := []; writes := []; lines := [Data "next"];
                     chunks := [] |};
          overViewFormat := []; capabilities := [];
          loadedCapabilities := false; Banner := "news.example.com ready";
          compress := false |}.
Proof.
  apply (proj2 (X9_connect_accepts_only_200 _ _)).
  exists "news.example.com ready", [Data "next"]. split; reflexivity.
Defined.

Lemma X10_witness :
  let c := mkPlainClient []
             [Data "101 Capability list:"; Data "VERSION 2"; Data ".";
              Data "101 Capability list:"; Data "VERSION 2"; Data "READER";
              Data "."] in
  let c1 := (Capabilities c).1 in
  let c2 := (Capabilities c1).1 in
  issued c c1 = ["CAPABILITIES"]
  /\ issued c1 c2 = ["CAPABILITIES"]
  /\ capabilities c2 = ["VERSION 2"; "READER"]
  /\ ((Capabilities c).2 = Ok (map unstuff ["VERSION 2"])
      /\ capabilities c1 = map unstuff ["VERSION 2"]
      /\ lines (conn c1)
         = [Data "101 Capability list:"; Data "VERSION 2"; Data "READER";
            Data "."]).
Proof.
  cbv zeta.
  match goal with |- issued ?c ?c1 = _ /\ _ =>
    destruct (X10_capabilities_are_fetched_on_every_call c)
      as (_ & _ & Hi & _ & _ & Hreply);
    destruct (X10_capabilities_are_fetched_on_every_call c1)
      as (_ & _ & Hi1 & _ & Hs1 & _)
  end.
  split; [exact (Hi eq_refl)|]. split; [exact (Hi1 eq_refl)|].
  split; [exact (Hs1 _ eq_refl)|].
  apply (Hreply eq_refl _ (101%Z, "Capability list:") ["VERSION 2"]
           [Data "101 Capability list:"; Data "VERSION 2"; Data "READER";
            Data "."] eq_refl eq_refl).
  repeat constructor; discriminate.
Defined.

Lemma X11_witness :
  let ok := mkPlainClient [] [Data "381 Password required"; Data "281 Welcome"] in
  let no := mkPlainClient [] [Data "481 Unknown user"; Data "281 Welcome"] in
  issued ok (Authenticate "alice" "secret" ok).1
    = ["authinfo user alice"; "authinfo pass secret"]
  /\ issued no (Command "authinfo user alice" 381 no).1 = ["authinfo user alice"]
  /\ (Authenticate "alice" "secret" no).2 = Err (CodeError 481 "Unknown user").
Proof.
  cbv zeta.
  destruct (X11_password_only_after_381 "alice" "secret"
              (mkPlainClient [] [Data "381 Password required"; Data "281 Welcome"]))
    as (_ & Hok & _).
  destruct (X11_password_only_after_381 "alice" "secret"
              (mkPlainClient [] [Data "481 Unknown user"; Data "281 Welcome"]))
    as (Hno & _ & _).
  split; [exact (Hok "Welcome" eq_refl)|].
  destruct (Hno _ (CodeError 481 "Unknown user") eq_refl) as [Heq Hi].
  split; [exact Hi|]. rewrite Heq. reflexivity.
Defined.

Lemma X12_witness :
  let c := mkPlainClient []
             [Data "215 list of newsgroups follows";
              Data "comp.lang.go 120 5 y";
              Data "misc.test many 1 y";
              Data "alt.binaries.test 300 1 m and more";
              Data "."; Data "next"] in
  exists c',
    List "ACTIVE" c
    = (c', Ok [ {| nntp.Name := "comp.lang.go"; nntp.High := 120; nntp.Low := 5;
                   nntp.Count := 0; nntp.Posting := nntp.PostingPermitted |};
                {| nntp.Name := "alt.binaries.test"; nntp.High := 300;
                   nntp.Low := 1; nntp.Count := 0;
                   nntp.Posting := nntp.PostingModerated |} ])
    /\ lines (conn c') = [Data "next"].
Proof.
  cbv zeta.
  destruct (X12_List_returns_the_parseable_lines "ACTIVE"
    (mkPlainClient []
       [Data "215 list of newsgroups follows";
        Data "comp.lang.go 120 5 y";
        Data "misc.test many 1 y";
        Data "alt.binaries.test 300 1 m and more";
        Data "."; Data "next"])
    _ _
    ["comp.lang.go 120 5 y"; "misc.test many 1 y";
     "alt.binaries.test 300 1 m and more"]
    [Some {| nntp.Name := "comp.lang.go"; nntp.High := 120; nntp.Low := 5;
             nntp.Count := 0; nntp.Posting := nntp.PostingPermitted |};
     None;
     Some {| nntp.Name := "alt.binaries.test"; nntp.High := 300; nntp.Low := 1;
             nntp.Count := 0; nntp.Posting := nntp.PostingModerated |}]
    [Data "next"] eq_refl eq_refl) as (c' & H1 & H2 & _).
  - repeat constructor; discriminate.
  - constructor; [|constructor; [|constructor; [|constructor]]].
    + exists "comp.lang.go", "120", "5", "y", []. repeat split; reflexivity.
    + exists "misc.test", "many", "1", ["y"]. split; [reflexivity|].
      left. eexists. reflexivity.
    + exists "alt.binaries.test", "300", "1", "m", ["and"; "more"].
      repeat split; reflexivity.
  - exists c'. split; [exact H1|exact H2].
Defined.

Lemma X13_witness :
  let c := mkPlainClient []
             [Data "215 information follows";
              Data "comp.lang.go 120 5 y";
              Data "misc.test General";
              Data "."; Data "next"] in
  exists c', List "NEWSGROUPS" c = (c', Panic IndexOutOfRange)
             /\ lines (conn c') = [Data "next"].
Proof.
  cbv zeta.
  apply (X13_List_panics_on_a_short_line "NEWSGROUPS"
    (mkPlainClient []
       [Data "215 information follows";
        Data "comp.lang.go 120 5 y";
        Data "misc.test General";
        Data "."; Data "next"])
    _ _ ["comp.lang.go 120 5 y"] "misc.test General" []
    [Some {| nntp.Name := "comp.lang.go"; nntp.High := 120; nntp.Low := 5;
             nntp.Count := 0; nntp.Posting := nntp.PostingPermitted |}]
    [Data "next"] eq_refl eq_refl).
  - repeat constructor; discriminate.
  - constructor; [|constructor].
    exists "comp.lang.go", "120", "5", "y", []. repeat split; reflexivity.
  - left. vm_compute. lia.
Defined.

Lemma X14_witness :
  let c := mkPlainClient [] [Data "211 1234 3000234 3002322 misc.test selected"] in
  exists grp, Group "misc.test" c = ((Command "GROUP misc.test" 211 c).1, Ok grp)
              /\ nntp.Name grp = "misc.test" /\ nntp.Count grp = 1234%Z
              /\ nntp.Low grp = 3000234%Z /\ nntp.High grp = 3002322%Z.
Proof.
  cbv zeta.
  apply (X14_Group_reads_the_first_four_fields "misc.test"
    (mkPlainClient [] [Data "211 1234 3000234 3002322 misc.test selected"])
    _ 211 "1234 3000234 3002322 misc.test selected"
    "1234" "3000234" "3002322" "misc.test" ["selected"]); reflexivity.
Defined.

Lemma X15_witness :
  let c := mkPlainClient [] [Data "211 0 0 0"] in
  Group "misc.test" c = ((Command "GROUP misc.test" 211 c).1, Panic IndexOutOfRange)
  \/ exists num k,
       num ∈ Split "0 0 0" " "%char
       /\ Group "misc.test" c
          = ((Command "GROUP misc.test" 211 c).1, Err (NumError "ParseInt" num k)).
Proof.
  cbv zeta.
  apply (X15_Group_short_reply "misc.test" (mkPlainClient [] [Data "211 0 0 0"])
           _ 211 "0 0 0" eq_refl).
  vm_compute. lia.
Defined.

Lemma X16_witness :
  let c := mkPlainClient [] [Data "221 3000234 <45223423@example.com> head"] in
  exists c1, Head "3000234" c = (c1, Ok (3000234%Z, "<45223423@example.com> head")).
Proof.
  cbv zeta. destruct X16_article_head_body as (_ & HH & _).
  destruct (HH "3000234"
              (mkPlainClient [] [Data "221 3000234 <45223423@example.com> head"]))
    as (_ & _ & H & _).
  eexists.
  apply (H _ _ 221%Z "3000234" "<45223423@example.com> head" 3000234%Z
           eq_refl eq_refl); [|reflexivity].
  apply lacks_check. reflexivity.
Defined.

Lemma X17_witness :
  let yes := mkPlainClient [] [Data "290 feature enabled"] in
  let no := mkPlainClient [] [Data "500 what?"] in
  compress (EnableCompression yes).1 = true
  /\ (compress (EnableCompression no).1 = true ->
      compress no = true
      \/ exists x, (Command "XFEATURE COMPRESS GZIP" 290 no).2 = Ok x).
Proof.
  cbv zeta. split.
  - apply X17_compression_needs_the_290. right. eexists. reflexivity.
  - apply X17_compression_needs_the_290.
Defined.

Lemma X18_witness :
  let c := mkPlainClient [OverHeaderSubject; OverHeaderFrm]
             [Data "224 Overview information follows";
              Data (joinTabs ["7"; "first"; "a@example.com"]);
              Data (joinTabs ["8"; "second"; "b@example.com"]);
              Data "."; Data "next"] in
  let arts :=
    [{| Id := 7; Subject := "first"; From_ := "a@example.com"; Date := zeroTime;
        MessageId := EmptyString; References := EmptyString; Bytes := 0;
        Lines := 0; XRef := EmptyString |};
     {| Id := 8; Subject := "second"; From_ := "b@example.com"; Date := zeroTime;
        MessageId := EmptyString; References := EmptyString; Bytes := 0;
        Lines := 0; XRef := EmptyString |}] in
  (exists c', Over testParseDate 7 8 c = (c', Ok arts)
              /\ lines (conn c') = [Data "next"])
  /\ (exists c', XOver testParseDate noZlib 7 8 c = (c', Ok arts)
                 /\ lines (conn c') = [Data "next"]).
Proof.
  cbv zeta.
  destruct (X18_Over_and_XOver_return_the_records testParseDate noZlib 7 8
    (mkPlainClient [OverHeaderSubject; OverHeaderFrm]
       [Data "224 Overview information follows";
        Data (joinTabs ["7"; "first"; "a@example.com"]);
        Data (joinTabs ["8"; "second"; "b@example.com"]);
        Data "."; Data "next"])
    _
    [joinTabs ["7"; "first"; "a@example.com"];
     joinTabs ["8"; "second"; "b@example.com"]]
    [{| Id := 7; Subject := "first"; From_ := "a@example.com"; Date := zeroTime;
        MessageId := EmptyString; References := EmptyString; Bytes := 0;
        Lines := 0; XRef := EmptyString |};
     {| Id := 8; Subject := "second"; From_ := "b@example.com"; Date := zeroTime;
        MessageId := EmptyString; References := EmptyString; Bytes := 0;
        Lines := 0; XRef := EmptyString |}]
    [Data "next"] eq_refl eq_refl) as [HO HX].
  - repeat constructor; discriminate.
  - repeat constructor; vm_compute; reflexivity.
  - split.
    + apply (HO _ (224%Z, "Overview information follows") eq_refl eq_refl).
    + apply (HX _ (224%Z, "Overview information follows") eq_refl eq_refl).
Defined.

Lemma X19_witness :
  let text := joinTabs ["7"; " first"] +:+ CRLF +:+ joinTabs ["8"; "second "]
              +:+ CRLF +:+ "9" in
  let c := {| conn := {| sent := []; writes := [];
                         lines := [Data "224 compressed data follows"];
                         chunks := [Data [x78; x9c; x2e; x0d; x0a]] |};
              overViewFormat := [OverHeaderSubject]; capabilities := [];
              loadedCapabilities := false; Banner := "ready"; compress := true |} in
  (XOver testParseDate (zlibOf text) 7 9 c).2
  = Ok [{| Id := 7; Subject := " first"; From_ := EmptyString; Date := zeroTime;
           MessageId := EmptyString; References := EmptyString; Bytes := 0;
           Lines := 0; XRef := EmptyString |};
        {| Id := 8; Subject := "second"; From_ := EmptyString; Date := zeroTime;
           MessageId := EmptyString; References := EmptyString; Bytes := 0;
           Lines := 0; XRef := EmptyString |}].
Proof.
  cbv zeta.
  match goal with |- (XOver _ (zlibOf ?text) _ _ ?c).2 = Ok ?arts =>
    destruct (X19_XOver_compressed_returns_the_records testParseDate (zlibOf text)
                7 9 c c (Command "XOVER 7-9" 224 c).1
                (224%Z, "compressed data follows")
                (getCompressedReader (zlibOf text)
                   (conn (Command "XOVER 7-9" 224 c).1)).1
                {| pending := text; final := EOF |} arts
                eq_refl eq_refl eq_refl eq_refl eq_refl) as [H _]
  end.
  - match goal with |- Forall2 ?P ?l ?arts =>
      let l' := eval vm_compute in l in change (Forall2 P l' arts)
    end.
    repeat constructor; vm_compute; reflexivity.
  - rewrite H. reflexivity.
Defined.

Lemma X20_witness :
  let c := mkPlainClient []
             [Data (joinTabs ["7"; "first"]); Data (joinTabs ["x"; "second"]);
              Data (joinTabs ["9"; "third"]); Data "."; Data "next"] in
  let v := [{| Id := 7; Subject := "first"; From_ := EmptyString;
               Date := zeroTime; MessageId := EmptyString;
               References := EmptyString; Bytes := 0; Lines := 0;
               XRef := EmptyString |}] in
  exists c',
    readDotLines noZlib (collect testParseDate [OverHeaderSubject]) (c, [])
    = ((c', v), Err (NumError "ParseUint" "x" ErrSyntax))
    /\ lines (conn c') = [Data (joinTabs ["9"; "third"]); Data "."; Data "next"].
Proof.
  cbv zeta.
  apply (X20_callback_error_leaves_the_reply_unread noZlib
           (collect testParseDate [OverHeaderSubject])
           (mkPlainClient []
              [Data (joinTabs ["7"; "first"]); Data (joinTabs ["x"; "second"]);
               Data (joinTabs ["9"; "third"]); Data "."; Data "next"])
           [] [joinTabs ["7"; "first"]] (joinTabs ["x"; "second"])
           [Data (joinTabs ["9"; "third"]); Data "."; Data "next"]
           [{| Id := 7; Subject := "first"; From_ := EmptyString;
               Date := zeroTime; MessageId := EmptyString;
               References := EmptyString; Bytes := 0; Lines := 0;
               XRef := EmptyString |}]
           [{| Id := 7; Subject := "first"; From_ := EmptyString;
               Date := zeroTime; MessageId := EmptyString;
               References := EmptyString; Bytes := 0; Lines := 0;
               XRef := EmptyString |}]
           (NumError "ParseUint" "x" ErrSyntax) eq_refl eq_refl).
  - repeat constructor; vm_compute; discriminate.
  - vm_compute. reflexivity.
  - vm_compute. reflexivity.
Defined.

Lemma X21_witness :
  let text := joinTabs ["7"; "first"] +:+ CRLF +:+ joinTabs ["x"; "second"]
              +:+ CRLF +:+ joinTabs ["9"; "third"] +:+ CRLF in
  let c := mkCompressedClient [] [Data [x78; x9c; x2e; x0d; x0a]; Data [x32]] in
  (readDotLines (zlibOf text) (collect testParseDate [OverHeaderSubject])
     (c, [])).2
  = Err (NumError "ParseUint" "x" ErrSyntax).
Proof.
  cbv zeta.
  match goal with |- (readDotLines (zlibOf ?text) ?f (?c, [])).2 = _ =>
    rewrite (X21_compressed_reply_feeds_the_callback (zlibOf text) f c []
               (getCompressedReader (zlibOf text) (conn c)).1
               {| pending := text; final := EOF |} eq_refl eq_refl)
  end.
  vm_compute. reflexivity.
Defined.

Lemma X22_witness :
  let c := mkPlainClient []
             [Data "215 Order of fields in overview database.";
              Data "Subject:"; Data "From:"; Data "Date:"; Data "Keywords:";
              Data "."; Data "next"] in
  exists c', ensureOverViewFormat c = (c', Ok tt)
             /\ overViewFormat c'
                = concat (map (overviewFmtCase [])
                            (map unstuff ["Subject:"; "From:"; "Date:"; "Keywords:"]))
             /\ lines (conn c') = [Data "next"]
             /\ issued c c' = ["LIST OVERVIEW.FMT"].
Proof.
  cbv zeta.
  apply (X22_negotiated_schema
           (mkPlainClient []
              [Data "215 Order of fields in overview database.";
               Data "Subject:"; Data "From:"; Data "Date:"; Data "Keywords:";
               Data "."; Data "next"])
           _ (215%Z, "Order of fields in overview database.")
           ["Subject:"; "From:"; "Date:"; "Keywords:"] [Data "next"]
           eq_refl eq_refl eq_refl).
  repeat constructor; discriminate.
Defined.

Lemma testParseDate_no_panic s p : testParseDate s <> Panic p.
Proof. unfold testParseDate. repeat case_decide; discriminate. Qed.

Lemma X23_witness :
  match parseArticleOverview testParseDate
          (joinTabs ["12"; "subject"; "not a date"])
          [OverHeaderSubject; OverHeaderDate; OverHeaderBytes] with
  | Ok r => exists item0 items,
              Split (joinTabs ["12"; "subject"; "not a date"]) TAB = item0 :: items
              /\ ParseUint item0 64 = Ok (Id r)
  | Err _ => True
  | Panic _ => False
  end.
Proof.
  apply (X23_parse_does_not_panic testParseDate). apply testParseDate_no_panic.
Defined.

Lemma X24_witness :
  let c := {| conn := {| sent := []; writes := [];
                         lines := [Data "224 yenc data follows"; Data "next"];
                         chunks := [Data [x3d; x79]] |};
              overViewFormat := [OverHeaderSubject]; capabilities := [];
              loadedCapabilities := false; Banner := "ready"; compress := false |} in
  let c' := (Xzver emptyYenc 1 2 c).1 in
  lines (conn c') = [Data "next"]
  /\ chunks (conn c') = (emptyYenc (chunks (conn c))).1.
Proof.
  cbv zeta.
  match goal with |- lines (conn (Xzver _ _ _ ?c).1) = _ /\ _ =>
    destruct (X24_Xzver_returns_no_record emptyYenc 1 2 c) as [_ H];
    exact (H c (Command "XZVER 1-2" 224 c).1 (224%Z, "yenc data follows")
             eq_refl eq_refl)
  end.
Defined.

Lemma X25_witness :
  let article := ["Subject: test"; EmptyString; "body"] in
  let no := mkPlainClient [] [Data "440 posting not allowed"] in
  let yes := mkPlainClient [] [Data "340 send article"; Data "240 article posted"] in
  issued no (Post (list string) copyLines closeFails article no).1 = ["POST"]
  /\ (Post (list string) copyLines closeFails article yes).2 = Ok tt.
Proof.
  cbv zeta.
  destruct (X25_Post_sends_the_article_after_340 (list string) copyLines closeFails
              ["Subject: test"; EmptyString; "body"]
              (mkPlainClient [] [Data "440 posting not allowed"])) as (Hno & _).
  destruct (X25_Post_sends_the_article_after_340 (list string) copyLines closeFails
              ["Subject: test"; EmptyString; "body"]
              (mkPlainClient []
                 [Data "340 send article"; Data "240 article posted"]))
    as (_ & _ & Hyes).
  split.
  - rewrite (Hno _ (CodeError 440 "posting not allowed") eq_refl). reflexivity.
  - rewrite (Hyes _ (340%Z, "send article") _ _ (Err (OtherError "broken pipe"))
               eq_refl eq_refl eq_refl); [reflexivity|discriminate].
Defined.

Lemma X26_witness :
  let c := mkPlainClient [] [Data "215 list follows"] in
  (Command "LIST" 2 c).2 = Ok (215%Z, "list follows")
  /\ (Command "LIST" (-1) c).2 = Ok (215%Z, "list follows")
  /\ ((Command "LIST" 211 c).2 = Ok (215%Z, "list follows") <-> 215%Z = 211%Z).
Proof.
  cbv zeta.
  assert (Hc : (100 <= 215 < 1000)%Z) by lia.
  pose proof (fun expect =>
    X26_expected_code_of_Command "LIST" expect
      (mkPlainClient [] [Data "215 list follows"]) _ 215 "list follows" []
      Hc eq_refl eq_refl) as H.
  split; [|split].
  - destruct (H 2%Z) as (_ & _ & H2 & _). apply H2; lia.
  - destruct (H (-1)%Z) as (_ & _ & _ & H0). apply H0. lia.
  - destruct (H 211%Z) as (_ & H3 & _). apply H3. lia.
Defined.

End SessionMore.
